(** * solhydra: the report-aggregation pipeline of [lib/index.js]

    A shallow embedding of the functions that turn the workspace left behind
    by the analysis tools into the object handed to the report template:
    [getContractNames], [getSubDirPathSplitted], [generateFileOutputs],
    [getToolOutputNames], [generateToolOutputs], [generateRenderObject] and
    the part of [generateReport] that builds the render object. Around them,
    the command line ([getAbsolutePath], [parseArgs]), the copy of the project
    files ([addPackageJson]) and the sequence of stages of a run ([start],
    with the arguments of [executeTasks]).

    Conventions of the embedding.
    - JavaScript strings are [string]s; file names are taken to be ASCII
      (only [toLowerCase] looks at letters, and it is modelled on ASCII).
    - JavaScript objects used as dictionaries are [gmap string _].
    - The workspace directory is a tree of files and directories; the
      synchronous [fs] calls either return or throw, which is the [completion]
      type below.
    - [showdown]'s [makeHtml] is an external library function of type
      string -> string; it is a parameter of everything that uses it. *)

From Stdlib Require Import ZArith Ascii.
From stdpp Require Import gmap strings list fin_maps.

Local Open Scope Z_scope.

(** ** JavaScript built-ins used by the program *)
Module JS.

(** [s.split(sep)] for a one-character separator. The result is never
    empty: [''.split('.')] is [['']]. *)
Fixpoint split (sep : ascii) (s : string) : list string :=
  match s with
  | EmptyString => [EmptyString]
  | String c s' =>
      if Ascii.eqb c sep then EmptyString :: split sep s'
      else match split sep s' with
           | seg :: segs => String c seg :: segs
           | [] => [String c EmptyString]
           end
  end.

(** [arr.join(sep)]. *)
Fixpoint join (sep : string) (arr : list string) : string :=
  match arr with
  | [] => EmptyString
  | [x] => x
  | x :: arr' => x +:+ sep +:+ join sep arr'
  end.

(** [arr.reduce(callback, init)]; the callback receives the accumulator,
    the current item, its index and the whole array. *)
Fixpoint reduce_from {A B : Type} (callback : B → A → Z → list A → B)
    (arr : list A) (idx : Z) (rest : list A) (memo : B) : B :=
  match rest with
  | [] => memo
  | item :: rest' =>
      reduce_from callback arr (idx + 1) rest' (callback memo item idx arr)
  end.

Definition reduce {A B : Type} (callback : B → A → Z → list A → B)
    (arr : list A) (init : B) : B :=
  reduce_from callback arr 0 arr init.

(** [arr.length] *)
Definition length {A : Type} (arr : list A) : Z := Z.of_nat (List.length arr).

(** [s.startsWith(p)] *)
Fixpoint startsWith (p s : string) : bool :=
  match p, s with
  | EmptyString, _ => true
  | String a p', String b s' => Ascii.eqb a b && startsWith p' s'
  | String _ _, EmptyString => false
  end.

(** [s.substring(n)] *)
Fixpoint drop (n : nat) (s : string) : string :=
  match n, s with
  | O, _ => s
  | S n', String _ s' => drop n' s'
  | S _, EmptyString => EmptyString
  end.

(** [s.replace(pattern, replacement)] with a string pattern: only the
    first (leftmost) occurrence of [pattern] is replaced. *)
Fixpoint replace_first (pattern replacement s : string) : string :=
  if startsWith pattern s
  then replacement +:+ drop (String.length pattern) s
  else match s with
       | EmptyString => EmptyString
       | String c s' => String c (replace_first pattern replacement s')
       end.

(** [s.replace(/c/g, replacement)] for a regular expression matching the
    single character [c]: every occurrence is replaced. *)
Fixpoint replace_all_char (c : ascii) (replacement : string) (s : string) : string :=
  match s with
  | EmptyString => EmptyString
  | String a s' =>
      (if Ascii.eqb a c then replacement else String a EmptyString)
        +:+ replace_all_char c replacement s'
  end.

(** [toLowerCase] on one ASCII character: 'A'..'Z' move to 'a'..'z'. *)
Definition lower_ascii (a : ascii) : ascii :=
  let n := nat_of_ascii a in
  if (Nat.leb 65 n && Nat.leb n 90)%bool then ascii_of_nat (n + 32) else a.

(** [s.toLowerCase()] *)
Fixpoint toLowerCase (s : string) : string :=
  match s with
  | EmptyString => EmptyString
  | String a s' => String (lower_ascii a) (toLowerCase s')
  end.

(** [s.endsWith(suffix)] *)
Definition endsWith (suffix s : string) : bool :=
  String.eqb (drop (String.length s - String.length suffix) s) suffix.

(** [s.includes(pattern)] *)
Fixpoint includes (pattern s : string) : bool :=
  startsWith pattern s
  || match s with
     | EmptyString => false
     | String _ s' => includes pattern s'
     end.

End JS.

(** ** Path Normalizer *)

(** [getSubDirPathSplitted]: the dotted name of a flattened contract back to
    the path segments of the file in the original [contracts/] tree. *)
Definition getSubDirPathSplitted (filePath : string) : list string :=
  JS.reduce
    (λ (memo : list string) (item : string) (idx : Z) (arr : list string),
       if idx =? JS.length arr - 1 then memo
       else if idx =? JS.length arr - 2 then memo ++ [item +:+ ".sol"]
       else memo ++ [item])
    (JS.split "." filePath) [].

(** ** The workspace on disk *)

(** A file-system entry below the workspace directory: a regular file with
    its text, or a directory with its named entries. *)
#[warnings="-register-all"]
Inductive node : Type :=
  | File (content : string)
  | Dir (entries : gmap string node).

(** The error codes with which the synchronous [fs] calls throw. *)
Inductive fs_error : Type := ENOENT | ENOTDIR | EISDIR.

(** The outcome of evaluating JavaScript code that may throw. *)
Inductive completion (A : Type) : Type :=
  | Normal (value : A)
  | Throw (err : fs_error).
Arguments Normal {A} value.
Arguments Throw {A} err.

#[global] Instance completion_ret : MRet completion := λ A a, Normal a.
#[global] Instance completion_bind : MBind completion := λ A B k c,
  match c with
  | Normal a => k a
  | Throw e => Throw e
  end.
#[global] Instance completion_fmap : FMap completion := λ A B g c,
  match c with
  | Normal a => Normal (g a)
  | Throw e => Throw e
  end.

(** [arr.reduce(callback, init)] with a callback that may throw: the first
    exception aborts the reduction. *)
Fixpoint reduceM {A B : Type} (callback : B → A → completion B)
    (arr : list A) (memo : B) : completion B :=
  match arr with
  | [] => Normal memo
  | item :: arr' => memo' ← callback memo item; reduceM callback arr' memo'
  end.

(** [arr.filter(callback)] with a callback that may throw. *)
Fixpoint filterM {A : Type} (callback : A → completion bool)
    (arr : list A) : completion (list A) :=
  match arr with
  | [] => Normal []
  | item :: arr' =>
      keep ← callback item;
      kept ← filterM callback arr';
      mret (if keep : bool then item :: kept else kept)
  end.

(** A path is the list of its components below [WORKSPACE_DIR_PATH]. *)
Definition path : Type := list string.

Definition INPUT_DIR_PATH : path := ["input"].
Definition OUTPUT_DIR_PATH : path := ["output"].

(** [path.join(base, ...segments)] for segments that are single path
    components (names returned by [readdirSync], or pieces of such names
    cut at dots): zero-length segments are ignored. *)
Definition path_join (base : path) (segments : list string) : path :=
  base ++ filter (λ segment, segment ≠ EmptyString) segments.

(** Walks [p] down from [n]. A missing entry is [ENOENT]; asking for an entry
    below a regular file is [ENOTDIR]. *)
Fixpoint resolve (n : node) (p : path) : fs_error + node :=
  match p with
  | [] => inr n
  | component :: p' =>
      match n with
      | File _ => inl ENOTDIR
      | Dir entries =>
          match entries !! component with
          | Some n' => resolve n' p'
          | None => inl ENOENT
          end
      end
  end.

Section FileSystem.
Variable workspace : node.

(** [fs.existsSync(p)]: true for files and for directories alike. *)
Definition existsSync (p : path) : bool :=
  match resolve workspace p with
  | inr _ => true
  | inl _ => false
  end.

(** [fs.readFileSync(p, 'utf8')] *)
Definition readFileSync (p : path) : completion string :=
  match resolve workspace p with
  | inr (File content) => Normal content
  | inr (Dir _) => Throw EISDIR
  | inl e => Throw e
  end.

(** [fs.readdirSync(p)]: the names of the entries of a directory. *)
Definition readdirSync (p : path) : completion (list string) :=
  match resolve workspace p with
  | inr (Dir entries) => Normal (map_to_list entries).*1
  | inr (File _) => Throw ENOTDIR
  | inl e => Throw e
  end.

End FileSystem.

(** ** Configuration tables *)

(** [toolOutputFileTypeMap]: the file type each tool output directory holds.
    Indexing the object with a name it does not list gives [undefined], here
    [None] (the members every object inherits, such as [constructor], are not
    strings either and are not told apart from [undefined]). *)
Definition toolOutputFileTypeMap : gmap string string :=
  list_to_map
    [ ("mythril", "markdown");
      ("oyente", "text");
      ("surya_graph", "image");
      ("surya_describe", "text");
      ("surya_parse", "text");
      ("surya_ftrace", "text");
      ("surya_inheritance", "image");
      ("solhint", "text");
      ("solidity-coverage", "html");
      ("solidity-analyzer", "text");
      ("solium", "text") ].

(** [AVAILABLE_TOOLS]: the tool names accepted on the command line. *)
Definition AVAILABLE_TOOLS : list string :=
  [ "mythril"; "oyente"; "solhint"; "solidity-coverage"; "solidity-analyzer";
    "surya"; "solium" ].

(** [docker-compose.yml]: every service with the directories below
    [output/] that its volumes bind to the container's output directories. *)
Definition compose_services : list (string * list string) :=
  [ ("mythril", ["mythril"]);
    ("oyente", ["oyente"]);
    ("solhint", ["solhint"]);
    ("solidity-coverage", ["solidity-coverage"]);
    ("solidity-analyzer", ["solidity-analyzer"]);
    ("surya", ["surya_graph"; "surya_describe"; "surya_parse"; "surya_ftrace";
               "surya_inheritance"]);
    ("solium", ["solium"]) ].

(** The output directories of the services that [docker-compose up ...tools]
    starts: those of the named services, or of all of them when no tool is
    named. *)
Definition compose_output_dirs (tools : list string) : list string :=
  flat_map snd
    (filter (λ service, tools = [] ∨ service.1 ∈ tools) compose_services).

(** ** The render object *)

Module FileContent.
Record t : Type := mk
  { flatten : string;
    combine : option string;
    original : option string }.
End FileContent.

Module FileOutput.
Record t : Type := mk
  { slug : string;
    name : string;
    content : FileContent.t }.
End FileOutput.

Module ToolOutput.
Record t : Type := mk
  { type : option string;
    content : string }.
End ToolOutput.

Module RenderObject.
Record t : Type := mk
  { fileOutputs : gmap string FileOutput.t;
    toolOutputs : gmap string (gmap string ToolOutput.t) }.
End RenderObject.

(** ** Report Assembler and Output Correlator *)

(** The [slug] expression of [generateFileOutputs]:
    [contractName.replace('.sol', '').replace(/\./g, '-').toLowerCase()]. *)
Definition slugOf (contractName : string) : string :=
  JS.toLowerCase
    (JS.replace_all_char "." "-" (JS.replace_first ".sol" "" contractName)).

Section Report.
Variable workspace : node.
(** [markdownConverter.makeHtml] of the [showdown] library. *)
Variable makeHtml : string → string.

(** [getContractNames] *)
Definition getContractNames : completion (list string) :=
  filenames ← readdirSync workspace (path_join INPUT_DIR_PATH ["contracts_flatten"]);
  mret (filter (λ filename, filename ≠ "Migrations.sol") filenames).

(** [generateFileOutputs] *)
Definition generateFileOutputs (contractNames : list string)
    : completion (gmap string FileOutput.t) :=
  reduceM
    (λ memo contractName,
       flatten ← readFileSync workspace
         (path_join INPUT_DIR_PATH ["contracts_flatten"; contractName]);
       combine ←
         (if existsSync workspace
               (path_join INPUT_DIR_PATH ["contracts_combine"; contractName])
          then Some <$> readFileSync workspace
                 (path_join INPUT_DIR_PATH ["contracts_combine"; contractName])
          else mret None);
       original ←
         (if existsSync workspace
               (path_join INPUT_DIR_PATH
                  ("contracts" :: getSubDirPathSplitted contractName))
          then Some <$> readFileSync workspace
                 (path_join INPUT_DIR_PATH
                    ("contracts" :: getSubDirPathSplitted contractName))
          else mret None);
       mret (<[contractName :=
                 FileOutput.mk (slugOf contractName) contractName
                   (FileContent.mk flatten combine original)]> memo))
    contractNames ∅.

(** [getToolOutputNames] *)
Definition getToolOutputNames : completion (list string) :=
  dirNames ← readdirSync workspace OUTPUT_DIR_PATH;
  filterM
    (λ dirName,
       entries ← readdirSync workspace (path_join OUTPUT_DIR_PATH [dirName]);
       mret (negb (JS.length entries =? 0)))
    dirNames.

(** [generateToolOutputs] *)
Definition generateToolOutputs (contractNames toolOutputNames : list string)
    : completion (gmap string (gmap string ToolOutput.t)) :=
  reduceM
    (λ memo contractName,
       outputs ←
         reduceM
           (λ memoToolOutput toolOutputName,
              if negb (existsSync workspace
                         (path_join OUTPUT_DIR_PATH [toolOutputName; contractName]))
              then mret memoToolOutput
              else
                content ←
                  (if decide (toolOutputFileTypeMap !! toolOutputName = Some "markdown")
                   then makeHtml <$> readFileSync workspace
                          (path_join OUTPUT_DIR_PATH [toolOutputName; contractName])
                   else readFileSync workspace
                          (path_join OUTPUT_DIR_PATH [toolOutputName; contractName]));
                mret (<[toolOutputName :=
                          ToolOutput.mk (toolOutputFileTypeMap !! toolOutputName)
                            content]> memoToolOutput))
           toolOutputNames ∅;
       mret (<[contractName := outputs]> memo))
    contractNames ∅.

(** [generateRenderObject] *)
Definition generateRenderObject (fileOutputs : gmap string FileOutput.t)
    (toolOutputs : gmap string (gmap string ToolOutput.t)) : RenderObject.t :=
  RenderObject.mk fileOutputs toolOutputs.

(** [generateReport], up to the object handed to [pug.renderFile]; creating
    the destination directory and writing the rendered page are outside the
    workspace and not part of the model. *)
Definition generateReport : completion RenderObject.t :=
  toolOutputNames ← getToolOutputNames;
  contractNames ← getContractNames;
  fileOutputs ← generateFileOutputs contractNames;
  toolOutputs ← generateToolOutputs contractNames toolOutputNames;
  mret (generateRenderObject fileOutputs toolOutputs).

End Report.

(** ** Vocabulary of the statements *)

(** The slug as the specification words it: strip the extension (the last
    dot-separated segment), put a hyphen for each remaining separator,
    lowercase. *)
Definition slug_by_segments (canonicalName : string) : string :=
  JS.toLowerCase (JS.join "-" (removelast (JS.split "." canonicalName))).

Section Vocabulary.
Variable workspace : node.
Variable makeHtml : string → string.

(** [p] names a regular file. *)
Definition isFile (p : path) : bool :=
  match resolve workspace p with
  | inr (File _) => true
  | _ => false
  end.

(** [p] names a regular file or nothing at all. *)
Definition notDirectory (p : path) : bool :=
  match resolve workspace p with
  | inr (Dir _) => false
  | _ => true
  end.

(** The text of the regular file at [p], if there is one. *)
Definition textAt (p : path) : option string :=
  match resolve workspace p with
  | inr (File content) => Some content
  | _ => None
  end.

(** Every listed contract has a regular flattened file, and neither its
    combined nor its original path is a directory. *)
Definition regularInputs (contractNames : list string) : bool :=
  forallb
    (λ contractName,
       isFile (path_join INPUT_DIR_PATH ["contracts_flatten"; contractName])
       && notDirectory (path_join INPUT_DIR_PATH ["contracts_combine"; contractName])
       && notDirectory
            (path_join INPUT_DIR_PATH
               ("contracts" :: getSubDirPathSplitted contractName)))
    contractNames.

(** No tool output directory holds a directory named after a contract. *)
Definition regularOutputs (contractNames toolOutputNames : list string) : bool :=
  forallb
    (λ contractName,
       forallb
         (λ toolOutputName,
            notDirectory (path_join OUTPUT_DIR_PATH [toolOutputName; contractName]))
         toolOutputNames)
    contractNames.

(** What [generateToolOutputs] stores under a tool for an output file with
    the text [text]. *)
Definition storedOutput (toolOutputName text : string) : ToolOutput.t :=
  ToolOutput.mk (toolOutputFileTypeMap !! toolOutputName)
    (if decide (toolOutputFileTypeMap !! toolOutputName = Some "markdown")
     then makeHtml text else text).

End Vocabulary.

(** ** Sample workspaces *)

(** A directory given by the list of its entries. *)
Definition dir (entries : list (string * node)) : node :=
  Dir (list_to_map entries).

(** A stand-in for [makeHtml] where a concrete converter is needed. *)
Definition wrapParagraph (text : string) : string :=
  "<p>" +:+ text +:+ "</p>".

(** A run over a small project: a top-level contract, a nested one, the
    truffle migrations contract and a dependency; [mythril] wrote nothing,
    [solhint] and [oyente] reported on [Token.sol] only. *)
Definition sample_workspace : node :=
  dir
    [ ("input",
       dir
         [ ("contracts",
            dir
              [ ("Token.sol", File "contract Token {}");
                ("Migrations.sol", File "contract Migrations {}");
                ("Governance",
                 dir [ ("Leader", dir [ ("LeaderGov.sol", File "contract LeaderGov {}") ]) ]) ]);
           ("contracts_flatten",
            dir
              [ ("Token.sol", File "contract Token {} // flattened");
                ("Migrations.sol", File "contract Migrations {} // flattened");
                ("Governance.Leader.LeaderGov.sol", File "contract LeaderGov {} // flattened");
                ("zeppelin.SafeMath.sol", File "library SafeMath {}") ]);
           ("contracts_combine",
            dir
              [ ("Token.sol", File "contract Token {} // combined");
                ("Governance.Leader.LeaderGov.sol", File "contract LeaderGov {} // combined") ]) ]);
      ("output",
       dir
         [ ("mythril", dir []);
           ("solhint", dir [ ("Token.sol", File "no issues") ]);
           ("oyente", dir [ ("Token.sol", File "# report") ]) ]) ].

(** A project with a file [A-B.sol] next to a directory [A] holding
    [B.sol]: flattening names them [A-B.sol] and [A.B.sol]. *)
Definition colliding_workspace : node :=
  dir
    [ ("input",
       dir
         [ ("contracts",
            dir
              [ ("A-B.sol", File "contract AB {}");
                ("A", dir [ ("B.sol", File "contract B {}") ]) ]);
           ("contracts_flatten",
            dir
              [ ("A-B.sol", File "contract AB {}");
                ("A.B.sol", File "contract B {}") ]);
           ("contracts_combine",
            dir
              [ ("A-B.sol", File "contract AB {}");
                ("A.B.sol", File "contract B {}") ]) ]);
      ("output", dir [ ("solhint", dir [ ("A.B.sol", File "no issues") ]) ]) ].

(** ** Further vocabulary *)

(** [s] has no dot: split at dots it is one segment, itself. *)
Definition singleSegment (s : string) : Prop := JS.split "." s = [s].

(** ** Command line *)

(** The options that [yargs] hands to [parseArgs], for options given with a
    string value: an option that was not given is [undefined], here [None].
    [positionals] is [argv._]. *)
Module Argv.
Record t : Type := mk
  { contractDir : option string;
    truffle : option string;
    git : option string;
    destFile : option string;
    npmDir : option string;
    ethpmDir : option string;
    positionals : list string }.
End Argv.

(** The object that [parseArgs] returns; a property that a mode does not
    set is [undefined], here [None]. *)
Module Args.
Record t : Type := mk
  { gitUrl : option string;
    destFilePath : string;
    contractPath : string;
    tools : list string;
    specPath : option string;
    npmDepPath : option string;
    ethpmDepPath : option string;
    migrationPath : option string;
    packageJsonPath : option string }.
End Args.

(** Truthiness of a value that is a string or [undefined]. *)
Definition truthy (value : option string) : bool :=
  match value with
  | Some s => negb (String.eqb s EmptyString)
  | None => false
  end.

(** The string behind an option, for uses that follow a truthiness test. *)
Definition valueOf (value : option string) : string := default EmptyString value.

(** [a && f(a)]: the falsy [a] itself, or [f a]. *)
Definition andThen (value : option string) (f : string → string) : option string :=
  if truthy value then f <$> value else value.

(** The three messages with which [parseArgs] prints the help and leaves
    with [process.exit(1)]. *)
Inductive usage_error : Type :=
  | MissingSource
  | MissingDestFile
  | InvalidTool (toolArg : string).

(** What a call of [parseArgs] comes to: the process is left, or the
    function returns, an object or (falling off its end) [undefined]. *)
Inductive parsed : Type :=
  | Exits (e : usage_error)
  | Returns (args : option Args.t).

Section CommandLine.
(** [untildify], [path.isAbsolute], [path.resolve] of one argument,
    [path.join] and [process.cwd()]. *)
Variable untildify : string → string.
Variable path_isAbsolute : string → bool.
Variable path_resolve : string → string.
Variable pathJoin : list string → string.
Variable cwd : string.
(** [TMP_GIT_REPO_PATH], a constant computed from the installation directory
    and the start time. *)
Variable TMP_GIT_REPO_PATH : string.

(** [getAbsolutePath] *)
Definition getAbsolutePath (inputPath : string) : string :=
  let inputPath := untildify inputPath in
  path_resolve
    (if path_isAbsolute inputPath then inputPath else pathJoin [cwd; inputPath]).

(** [parseArgs] *)
Definition parseArgs (argv : Argv.t) : parsed :=
  let contractDir := truthy (Argv.contractDir argv) in
  let truffle := truthy (Argv.truffle argv) in
  let git := truthy (Argv.git argv) in
  if (negb contractDir && negb truffle && negb git)
     || (contractDir && truffle || truffle && git || contractDir && git)
  then Exits MissingSource
  else if negb (truthy (Argv.destFile argv)) then Exits MissingDestFile
  else
    match
      List.find (λ toolArg, negb (bool_decide (toolArg ∈ AVAILABLE_TOOLS)))
        (Argv.positionals argv)
    with
    | Some toolArg => Exits (InvalidTool toolArg)
    | None =>
        if truffle then
          Returns (Some
            {| Args.gitUrl := None;
               Args.destFilePath := getAbsolutePath (valueOf (Argv.destFile argv));
               Args.contractPath :=
                 getAbsolutePath (pathJoin [valueOf (Argv.truffle argv); "contracts"]);
               Args.tools := Argv.positionals argv;
               Args.specPath :=
                 Some (getAbsolutePath (pathJoin [valueOf (Argv.truffle argv); "test"]));
               Args.npmDepPath :=
                 Some (getAbsolutePath
                         (pathJoin [valueOf (Argv.truffle argv); "node_modules"]));
               Args.ethpmDepPath :=
                 Some (getAbsolutePath
                         (pathJoin [valueOf (Argv.truffle argv); "installed_contracts"]));
               Args.migrationPath :=
                 Some (getAbsolutePath
                         (pathJoin [valueOf (Argv.truffle argv); "migrations"]));
               Args.packageJsonPath :=
                 Some (getAbsolutePath
                         (pathJoin [valueOf (Argv.truffle argv); "package.json"])) |})
        else if git then
          Returns (Some
            {| Args.gitUrl := Argv.git argv;
               Args.destFilePath := getAbsolutePath (valueOf (Argv.destFile argv));
               Args.contractPath := pathJoin [TMP_GIT_REPO_PATH; "contracts"];
               Args.tools := Argv.positionals argv;
               Args.specPath := Some (pathJoin [TMP_GIT_REPO_PATH; "test"]);
               Args.npmDepPath := Some (pathJoin [TMP_GIT_REPO_PATH; "node_modules"]);
               Args.ethpmDepPath :=
                 Some (pathJoin [TMP_GIT_REPO_PATH; "installed_contracts"]);
               Args.migrationPath := Some (pathJoin [TMP_GIT_REPO_PATH; "migrations"]);
               Args.packageJsonPath :=
                 Some (pathJoin [TMP_GIT_REPO_PATH; "package.json"]) |})
        else if contractDir then
          Returns (Some
            {| Args.gitUrl := None;
               Args.destFilePath := getAbsolutePath (valueOf (Argv.destFile argv));
               Args.contractPath := getAbsolutePath (valueOf (Argv.contractDir argv));
               Args.tools := Argv.positionals argv;
               Args.specPath := None;
               Args.npmDepPath := andThen (Argv.npmDir argv) getAbsolutePath;
               Args.ethpmDepPath := andThen (Argv.ethpmDir argv) getAbsolutePath;
               Args.migrationPath := None;
               Args.packageJsonPath := None |})
        else Returns None
    end.

End CommandLine.

(** The file that [generateReport] writes:
    [destFilePath.endsWith('.html') ? destFilePath : `${destFilePath}.html`]. *)
Definition reportFilePath (destFilePath : string) : string :=
  if JS.endsWith ".html" destFilePath then destFilePath
  else destFilePath +:+ ".html".

(** The arguments with which [executeTasks] spawns [docker-compose]. *)
Definition executeTasks_arguments (WORKSPACE_ID DOCKER_COMPOSE_PATH : string)
    (tools : list string) : list string :=
  ["-p"; WORKSPACE_ID; "-f"; DOCKER_COMPOSE_PATH; "up"] ++ tools.


(** A command line environment for examples: paths are taken as they are,
    joined with slashes, and the repository is cloned below [/opt]. *)
Definition sample_parseArgs : Argv.t → parsed :=
  parseArgs (λ inputPath, inputPath) (JS.startsWith "/") (λ inputPath, inputPath)
    (JS.join "/") "/home/user"
    "/opt/solhydra/.workspaces/workspace1/cloned-repo".

(** [solhydra --truffle=/home/user/project --dest-file=/home/user/out surya oyente] *)
Definition sample_argv : Argv.t :=
  {| Argv.contractDir := None;
     Argv.truffle := Some "/home/user/project";
     Argv.git := None;
     Argv.destFile := Some "/home/user/out";
     Argv.npmDir := None;
     Argv.ethpmDir := None;
     Argv.positionals := ["surya"; "oyente"] |}.

(** ** Project files *)

(** [fs.writeFileSync] on the tree: the parent directory must exist, and no
    directory may stand at the path itself. *)
Fixpoint writeAt (n : node) (p : path) (text : string) : fs_error + node :=
  match p with
  | [] => inl EISDIR
  | component :: p' =>
      match n with
      | File _ => inl ENOTDIR
      | Dir entries =>
          match p' with
          | [] =>
              match entries !! component with
              | Some (Dir _) => inl EISDIR
              | _ => inr (Dir (<[component := File text]> entries))
              end
          | _ :: _ =>
              match entries !! component with
              | Some n' =>
                  match writeAt n' p' text with
                  | inr n'' => inr (Dir (<[component := n'']> entries))
                  | inl e => inl e
                  end
              | None => inl ENOENT
              end
          end
      end
  end.

(** [fs.writeFileSync(p, text)], returning the file system after the call. *)
Definition writeFileSync (fs : node) (p : path) (text : string) : completion node :=
  match writeAt fs p text with
  | inr fs' => Normal fs'
  | inl e => Throw e
  end.

(** The components of an absolute, normalized path given as a string, as
    [getAbsolutePath] and [path.join] produce it. *)
Definition hostPath (s : string) : path :=
  filter (λ component, component ≠ EmptyString) (JS.split "/" s).

Section ProjectFiles.
(** The components of [WORKSPACE_DIR_PATH]; the tree is the whole file
    system here. *)
Variable WORKSPACE_DIR_PATH : path.

(** [addPackageJson] *)
Definition addPackageJson (fs : node) (packageJsonPath : string) : completion node :=
  packageJson ← readFileSync fs (hostPath packageJsonPath);
  let fs' :=
    match
      lock ← readFileSync fs
                (hostPath (JS.replace_first ".js" "-lock.js" packageJsonPath));
      writeFileSync fs
        (path_join (WORKSPACE_DIR_PATH ++ INPUT_DIR_PATH) ["package-lock.json"]) lock
    with
    | Normal fs' => fs'
    | Throw _ => fs
    end in
  writeFileSync fs' (path_join (WORKSPACE_DIR_PATH ++ INPUT_DIR_PATH) ["package.json"])
    packageJson.

End ProjectFiles.

(** A truffle project in [/home/user/project], with a lock file, and a
    workspace whose [input/] has been created. *)
Definition sample_host : node :=
  dir
    [ ("home",
       dir [ ("user",
              dir [ ("project",
                     dir [ ("package.json", File "{ name: project }");
                           ("package-lock.json", File "{ lockfileVersion: 1 }") ]) ]) ]);
      ("opt",
       dir [ ("solhydra",
              dir [ (".workspaces", dir [ ("workspace1", dir [ ("input", dir []) ]) ]) ]) ]) ].

Definition sample_WORKSPACE_DIR_PATH : path :=
  ["opt"; "solhydra"; ".workspaces"; "workspace1"].

(** ** The run *)

(** What a run does that can be seen from outside, in order. *)
Inductive event : Type :=
  | PrintHelp (e : usage_error)
  | CloneRepo (gitUrl : string)
  | SetupWorkspace (args : Args.t)
  | Rimraf (dirPath : string)
  | DockerComposeUp (arguments : list string)
  | GenerateReport (destFilePath : string)
  | LogError
  | ProcessExit (code : Z).

(** How the stages of one run end: whether [cloneRepo], [setupWorkspace]
    and [generateReport] return ([true]) or throw, and the exit code of
    [docker-compose]. *)
Module Outcomes.
Record t : Type := mk
  { cloneRepo : bool;
    setupWorkspace : bool;
    dockerCompose : Z;
    generateReport : bool }.
End Outcomes.

Section Run.
Variable untildify : string → string.
Variable path_isAbsolute : string → bool.
Variable path_resolve : string → string.
Variable pathJoin : list string → string.
Variable cwd : string.
(** [WORKSPACE_ID], [WORKSPACE_DIR_PATH], [TMP_GIT_REPO_PATH] and
    [DOCKER_COMPOSE_PATH], constants computed at start. *)
Variable WORKSPACE_ID : string.
Variable WORKSPACE_DIR_PATH : string.
Variable TMP_GIT_REPO_PATH : string.
Variable DOCKER_COMPOSE_PATH : string.

(** The [catch] block of [start]. *)
Definition start_catch : list event :=
  [LogError; Rimraf WORKSPACE_DIR_PATH; ProcessExit 1].

(** [start]: the events of a run, given the command line and how the stages
    end. [rimraf.sync] is taken not to throw. *)
Definition start (argv : Argv.t) (outcomes : Outcomes.t) : list event :=
  match
    parseArgs untildify path_isAbsolute path_resolve pathJoin cwd TMP_GIT_REPO_PATH argv
  with
  | Exits e => [PrintHelp e; ProcessExit 1]
  | Returns None => start_catch
  | Returns (Some args) =>
      (if truthy (Args.gitUrl args) then [CloneRepo (valueOf (Args.gitUrl args))] else [])
      ++ (if truthy (Args.gitUrl args) && negb (Outcomes.cloneRepo outcomes)
          then start_catch
          else
            SetupWorkspace args
            :: (if negb (Outcomes.setupWorkspace outcomes) then start_catch
                else
                  Rimraf TMP_GIT_REPO_PATH
                  :: DockerComposeUp
                       (executeTasks_arguments WORKSPACE_ID DOCKER_COMPOSE_PATH
                          (Args.tools args))
                  :: (if negb (Outcomes.dockerCompose outcomes =? 0) then start_catch
                      else
                        GenerateReport (Args.destFilePath args)
                        :: (if negb (Outcomes.generateReport outcomes)
                            then start_catch
                            else [Rimraf WORKSPACE_DIR_PATH; ProcessExit 0]))))
  end.

End Run.

(** A run in the sample command line environment. *)
Definition sample_start : Argv.t → Outcomes.t → list event :=
  start (λ inputPath, inputPath) (JS.startsWith "/") (λ inputPath, inputPath)
    (JS.join "/") "/home/user" "1"
    "/opt/solhydra/.workspaces/workspace1"
    "/opt/solhydra/.workspaces/workspace1/cloned-repo"
    "/opt/solhydra/docker-compose.yml".

(** * Properties *)

(** ** Strings *)

Lemma split_nonempty sep s : JS.split sep s ≠ [].
Proof. destruct s as [|c s]; simpl; [done|]. by repeat case_match. Qed.

Lemma join_split sep s : JS.join (String sep EmptyString) (JS.split sep s) = s.
Proof.
  induction s as [|c s IH]; simpl; [done|].
  destruct (Ascii.eqb_spec c sep) as [->|Hne].
  - pose proof (split_nonempty sep s) as Hs.
    destruct (JS.split sep s) as [|seg segs]; [done|].
    change (JS.join (String sep "") ("" :: seg :: segs))
      with (String sep (JS.join (String sep "") (seg :: segs))).
    by rewrite IH.
  - destruct (JS.split sep s) as [|seg segs] eqn:Hs.
    + by destruct (split_nonempty sep s).
    + rewrite <- IH. by destruct segs.
Qed.

(** A name without the separator is a single segment. *)
Lemma split_single sep s :
  List.length (JS.split sep s) = 1%nat → JS.split sep s = [s].
Proof.
  intros Hlen. pose proof (join_split sep s) as Hjoin.
  destruct (JS.split sep s) as [|seg [|? ?]]; simplify_eq/=; done.
Qed.

Lemma split_app_sep sep s t :
  JS.split sep (s +:+ String sep t) = JS.split sep s ++ JS.split sep t.
Proof.
  induction s as [|c s IH]; simpl.
  - by rewrite Ascii.eqb_refl.
  - destruct (Ascii.eqb c sep); [by rewrite IH|].
    rewrite IH. pose proof (split_nonempty sep s) as Hne.
    by destruct (JS.split sep s).
Qed.

Lemma join_split_replace (sep : ascii) (replacement s : string) :
  JS.join replacement (JS.split sep s) = JS.replace_all_char sep replacement s.
Proof.
  induction s as [|c s IH]; simpl; [done|].
  pose proof (split_nonempty sep s) as Hne.
  destruct (Ascii.eqb c sep).
  - rewrite <- IH. by destruct (JS.split sep s).
  - rewrite <- IH. destruct (JS.split sep s) as [|seg [|seg' segs]]; done.
Qed.

(** ** Path Normalizer *)

(** Case analysis on the index tests of a reduction callback. *)
Ltac cases_eqb :=
  repeat match goal with
         | |- context [?a =? ?b] => destruct (Z.eqb_spec a b)
         end.

Lemma length_nil_Z {A} : JS.length (@nil A) = 0.
Proof. reflexivity. Qed.

Lemma length_cons_Z {A} (x : A) l : JS.length (x :: l) = 1 + JS.length l.
Proof. unfold JS.length. simpl. lia. Qed.

Lemma length_app_Z {A} (l k : list A) : JS.length (l ++ k) = JS.length l + JS.length k.
Proof. unfold JS.length. rewrite length_app. lia. Qed.

Lemma length_nonneg {A} (l : list A) : 0 ≤ JS.length l.
Proof. unfold JS.length. lia. Qed.

(** The reduction of [getSubDirPathSplitted], started in the middle of the
    array: [done] has been consumed, the directories [dirs], the file name
    [base] and the last segment [ext] are still to come. *)
Lemma getSubDirPathSplitted_from (done dirs : list string) (base ext : string) memo :
  JS.reduce_from
    (λ (memo : list string) (item : string) (idx : Z) (arr : list string),
       if idx =? JS.length arr - 1 then memo
       else if idx =? JS.length arr - 2 then memo ++ [item +:+ ".sol"]
       else memo ++ [item])
    (done ++ dirs ++ [base; ext]) (JS.length done) (dirs ++ [base; ext]) memo
  = memo ++ dirs ++ [base +:+ ".sol"].
Proof.
  revert done memo. induction dirs as [|d dirs IH]; intros done memo; simpl.
  - rewrite length_app_Z, !length_cons_Z, length_nil_Z.
    cases_eqb; try lia; done.
  - rewrite length_app_Z, length_cons_Z, length_app_Z, !length_cons_Z, length_nil_Z.
    pose proof (length_nonneg dirs).
    cases_eqb; try lia.
    replace (JS.length done + 1) with (JS.length (done ++ [d]))
      by (rewrite length_app_Z, length_cons_Z, length_nil_Z; lia).
    replace (done ++ d :: dirs ++ [base; ext])
      with ((done ++ [d]) ++ dirs ++ [base; ext]) by by rewrite <- app_assoc.
    rewrite IH. by rewrite <- app_assoc.
Qed.

(** C1: a name with at least two dot-separated segments is split at the
    dots; the last segment is dropped, the one before it becomes the file
    name with [.sol] appended, and the segments before that are kept, in
    order, as directories. *)
Theorem getSubDirPathSplitted_segments (filePath : string)
    (dirs : list string) (base ext : string) :
  JS.split "." filePath = dirs ++ [base; ext] →
  getSubDirPathSplitted filePath = dirs ++ [base +:+ ".sol"].
Proof.
  intros Hsplit. unfold getSubDirPathSplitted, JS.reduce. rewrite Hsplit.
  apply (getSubDirPathSplitted_from [] dirs base ext []).
Qed.

Lemma getSubDirPathSplitted_segments_witness :
  JS.split "." "Governance.Leader.LeaderGov.sol"
    = ["Governance"; "Leader"] ++ ["LeaderGov"; "sol"]
  ∧ getSubDirPathSplitted "Governance.Leader.LeaderGov.sol"
    = ["Governance"; "Leader"] ++ ["LeaderGov" +:+ ".sol"].
Proof.
  split; [reflexivity|].
  apply (getSubDirPathSplitted_segments _ ["Governance"; "Leader"] "LeaderGov" "sol").
  reflexivity.
Defined.

Example getSubDirPathSplitted_nested :
  getSubDirPathSplitted "Governance.Leader.LeaderGov.sol"
  = ["Governance"; "Leader"; "LeaderGov.sol"].
Proof. reflexivity. Qed.

Example getSubDirPathSplitted_flat :
  getSubDirPathSplitted "Token.sol" = ["Token.sol"].
Proof. reflexivity. Qed.

(** C4, as the code has it: a name without a dot is not rejected, its nested
    path is empty. *)
Theorem getSubDirPathSplitted_no_dot (filePath : string) :
  (List.length (JS.split "." filePath) < 2)%nat →
  getSubDirPathSplitted filePath = [].
Proof.
  intros Hlen. pose proof (split_nonempty "." filePath) as Hne.
  unfold getSubDirPathSplitted, JS.reduce.
  destruct (JS.split "." filePath) as [|seg [|? ?]]; simpl in *; [done| |lia].
  reflexivity.
Qed.

Lemma getSubDirPathSplitted_no_dot_witness :
  (List.length (JS.split "." "Token") < 2)%nat
  ∧ getSubDirPathSplitted "Token" = [].
Proof.
  split; [simpl; lia|].
  apply (getSubDirPathSplitted_no_dot "Token"). simpl. lia.
Defined.

(** C4, counterexample: the name [Token] has a single segment, and the
    normalizer returns a path for it, the empty one. *)
Lemma getSubDirPathSplitted_single_segment_returns :
  JS.split "." "Token" = ["Token"] ∧ getSubDirPathSplitted "Token" = [].
Proof. split; reflexivity. Qed.

(** ** Slugs *)

(** The two names the specification gives as examples, and their slugs. *)
Example slugOf_nested : slugOf "Governance.Leader.LeaderGov.sol" = "governance-leader-leadergov".
Proof. reflexivity. Qed.

Example slugOf_flat : slugOf "Token.sol" = "token".
Proof. reflexivity. Qed.

(** When removing the leftmost [.sol] removes the extension, the slug is
    the one obtained by stripping the extension, hyphenating and
    lowercasing. *)
Lemma slugOf_extension_only (stem : string) :
  JS.replace_first ".sol" "" (stem +:+ ".sol") = stem →
  slugOf (stem +:+ ".sol") = slug_by_segments (stem +:+ ".sol").
Proof.
  intros Hstem. unfold slugOf, slug_by_segments. rewrite Hstem.
  change (stem +:+ ".sol") with (stem +:+ String "." "sol").
  rewrite split_app_sep.
  change (JS.split "." "sol") with ["sol"].
  by rewrite removelast_last, join_split_replace.
Qed.

Example slugOf_extension_only_nested :
  slugOf "Governance.Leader.LeaderGov.sol"
  = slug_by_segments "Governance.Leader.LeaderGov.sol".
Proof. by apply (slugOf_extension_only "Governance.Leader.LeaderGov"). Qed.

(** C8: [replace('.sol', '')] removes the leftmost [.sol], which is not the
    extension when a directory name starts with [sol]. For the contract
    [lib/solidity/Token.sol] the code gives the slug [libidity-token-sol];
    stripping the extension, hyphenating and lowercasing gives
    [lib-solidity-token]. *)
Theorem slugOf_leftmost_extension :
  getSubDirPathSplitted "lib.solidity.Token.sol" = ["lib"; "solidity"; "Token.sol"]
  ∧ slugOf "lib.solidity.Token.sol" = "libidity-token-sol"
  ∧ slug_by_segments "lib.solidity.Token.sol" = "lib-solidity-token"
  ∧ slugOf "lib.solidity.Token.sol" ≠ slug_by_segments "lib.solidity.Token.sol".
Proof. repeat split; done. Qed.

(** ** Reductions that may throw *)

Lemma reduceM_ext {A B} (f g : B → A → completion B) (l : list A) memo :
  (∀ b a, a ∈ l → f b a = g b a) → reduceM f l memo = reduceM g l memo.
Proof.
  revert memo. induction l as [|a l IH]; intros memo Hfg; simpl; [done|].
  rewrite Hfg by left. destruct (g memo a) as [b|e]; simpl; [|done].
  apply IH. intros b' a' Ha'. apply Hfg. by right.
Qed.

(** A reduction that stores one computed value per key: when it returns,
    every key of the list holds the value computed for it, and the other
    keys are as they were. *)
Lemma reduceM_insert_Normal {V} (g : string → completion V) (l : list string)
    (memo m : gmap string V) :
  reduceM (λ memo k, v ← g k; mret (<[k := v]> memo)) l memo = Normal m →
  (∀ k, k ∈ l → ∃ v, g k = Normal v ∧ m !! k = Some v)
  ∧ (∀ k, k ∉ l → m !! k = memo !! k).
Proof.
  revert memo. induction l as [|a l IH]; intros memo Hred; simpl in Hred.
  - simplify_eq. split; [by intros k ?%elem_of_nil|done].
  - destruct (g a) as [v|e] eqn:Hga; simpl in Hred; [|done].
    destruct (IH _ Hred) as [Hin Hout]. split.
    + intros k Hk. destruct (decide (k ∈ l)) as [Hkl|Hkl]; [by apply Hin|].
      apply elem_of_cons in Hk as [->|Hk]; [|done].
      exists v. split; [done|]. rewrite Hout by done. apply lookup_insert_eq.
    + intros k Hk. apply not_elem_of_cons in Hk as [Hka Hkl].
      rewrite Hout by done. by apply lookup_insert_ne.
Qed.

(** The same reduction returns as soon as the value of every key can be
    computed. *)
Lemma reduceM_insert_returns {V} (g : string → completion V) (l : list string)
    (memo : gmap string V) :
  (∀ k, k ∈ l → ∃ v, g k = Normal v) →
  ∃ m, reduceM (λ memo k, v ← g k; mret (<[k := v]> memo)) l memo = Normal m.
Proof.
  revert memo. induction l as [|a l IH]; intros memo Hg; simpl; [by eexists|].
  destruct (Hg a) as [v Hv]; [by left|]. rewrite Hv. simpl.
  apply IH. intros k Hk. apply Hg. by right.
Qed.

Lemma reduceM_insert_dom {V} (g : string → completion V) (l : list string)
    (m : gmap string V) :
  reduceM (λ memo k, v ← g k; mret (<[k := v]> memo)) l ∅ = Normal m →
  ∀ k, is_Some (m !! k) ↔ k ∈ l.
Proof.
  intros [Hin Hout]%reduceM_insert_Normal k. split.
  - intros Hsome. destruct (decide (k ∈ l)) as [|Hk]; [done|].
    rewrite Hout, lookup_empty in Hsome by done. by destruct Hsome.
  - intros Hk. destruct (Hin k Hk) as (v & _ & ->). by eexists.
Qed.

Lemma filterM_Normal {A} (f : A → completion bool) (l kept : list A) :
  filterM f l = Normal kept → ∀ x, x ∈ kept → x ∈ l ∧ f x = Normal true.
Proof.
  revert kept. induction l as [|a l IH]; intros kept Hf x Hx; simpl in Hf.
  - simplify_eq. by apply elem_of_nil in Hx.
  - destruct (f a) as [keep|e] eqn:Hfa; simpl in Hf; [|done].
    destruct (filterM f l) as [kept'|e]; simpl in Hf; [|done].
    injection Hf as <-. destruct keep.
    + apply elem_of_cons in Hx as [->|Hx].
      * split; [by left|done].
      * destruct (IH kept' eq_refl x Hx). split; [by right|done].
    + destruct (IH kept' eq_refl x Hx). split; [by right|done].
Qed.

Lemma filterM_returns {A} (f : A → completion bool) (l : list A) :
  (∀ x, x ∈ l → ∃ keep, f x = Normal keep) →
  ∃ kept, filterM f l = Normal kept ∧ ∀ x, x ∈ kept → x ∈ l.
Proof.
  induction l as [|a l IH]; intros Hf; simpl.
  - exists []. by split.
  - destruct (Hf a) as [keep Hkeep]; [by left|]. rewrite Hkeep. simpl.
    destruct IH as (kept & -> & Hsub); [intros x Hx; apply Hf; by right|]. simpl.
    exists (if keep then a :: kept else kept). split; [done|].
    intros x Hx. destruct keep.
    + apply elem_of_cons in Hx as [->|Hx]; [by left|right; by apply Hsub].
    + right. by apply Hsub.
Qed.

Lemma filterM_kept {A} (f : A → completion bool) (l kept : list A) x :
  filterM f l = Normal kept → x ∈ l → f x = Normal true → x ∈ kept.
Proof.
  revert kept. induction l as [|a l IH]; intros kept Hf Hx Hkeep; simpl in Hf.
  - by apply elem_of_nil in Hx.
  - destruct (f a) as [keep|e] eqn:Hfa; simpl in Hf; [|done].
    destruct (filterM f l) as [kept'|e]; simpl in Hf; [|done].
    injection Hf as <-.
    apply elem_of_cons in Hx as [->|Hx].
    + rewrite Hkeep in Hfa. injection Hfa as <-. by left.
    + specialize (IH kept' eq_refl Hx Hkeep). destruct keep; [by right|done].
Qed.

(** ** The file system *)

Lemma resolve_app n p q :
  resolve n (p ++ q)
  = match resolve n p with
    | inr n' => resolve n' q
    | inl e => inl e
    end.
Proof.
  revert n. induction p as [|component p IH]; intros n; simpl; [done|].
  destruct n as [text|entries]; [done|].
  by destruct (entries !! component).
Qed.

Lemma resolve_snoc n p component child :
  resolve n (p ++ [component]) = inr child →
  ∃ entries, resolve n p = inr (Dir entries) ∧ entries !! component = Some child.
Proof.
  rewrite resolve_app.
  destruct (resolve n p) as [e|[text|entries]]; simpl; try done.
  destruct (entries !! component) as [child'|] eqn:Hchild; [|done].
  intros [= <-]. by exists entries.
Qed.

Lemma readdirSync_Dir workspace p entries :
  resolve workspace p = inr (Dir entries) →
  readdirSync workspace p = Normal (map_to_list entries).*1.
Proof. unfold readdirSync. by intros ->. Qed.

Lemma readdirSync_NoDup workspace p names :
  readdirSync workspace p = Normal names → NoDup names.
Proof.
  unfold readdirSync.
  destruct (resolve workspace p) as [e|[text|entries]]; intros; simplify_eq.
  apply NoDup_fst_map_to_list.
Qed.

Lemma elem_of_keys (entries : gmap string node) name child :
  entries !! name = Some child → name ∈ (map_to_list entries).*1.
Proof.
  intros Hchild. apply list_elem_of_fmap. exists (name, child).
  split; [done|]. by apply elem_of_map_to_list.
Qed.

(** ** Output Correlator *)

Section OutputCorrelator.
Variable workspace : node.
Variable makeHtml : string → string.

(** The inner callback of [generateToolOutputs], for one contract. *)
Local Abbreviation perTool contractName :=
  (λ (memoToolOutput : gmap string ToolOutput.t) (toolOutputName : string),
     if negb (existsSync workspace
                (path_join OUTPUT_DIR_PATH [toolOutputName; contractName]))
     then mret memoToolOutput
     else
       content ←
         (if decide (toolOutputFileTypeMap !! toolOutputName = Some "markdown")
          then makeHtml <$> readFileSync workspace
                 (path_join OUTPUT_DIR_PATH [toolOutputName; contractName])
          else readFileSync workspace
                 (path_join OUTPUT_DIR_PATH [toolOutputName; contractName]));
       mret (<[toolOutputName :=
                 ToolOutput.mk (toolOutputFileTypeMap !! toolOutputName)
                   content]> memoToolOutput)).

(** One step of the inner reduction, by what is found at the path. *)
Lemma perTool_step contractName memo toolOutputName :
  perTool contractName memo toolOutputName
  = match resolve workspace
            (path_join OUTPUT_DIR_PATH [toolOutputName; contractName]) with
    | inl _ => Normal memo
    | inr (File text) =>
        Normal (<[toolOutputName := storedOutput makeHtml toolOutputName text]> memo)
    | inr (Dir _) => Throw EISDIR
    end.
Proof.
  unfold existsSync, readFileSync, storedOutput.
  destruct (resolve workspace _) as [e|[text|entries]]; simpl; try done;
    by case_decide.
Qed.

Lemma perTool_Normal contractName toolOutputNames memo outputs :
  reduceM (perTool contractName) toolOutputNames memo = Normal outputs →
  ∀ t, outputs !! t =
       if decide (t ∈ toolOutputNames)
       then match textAt workspace (path_join OUTPUT_DIR_PATH [t; contractName]) with
            | Some text => Some (storedOutput makeHtml t text)
            | None => memo !! t
            end
       else memo !! t.
Proof.
  revert memo. induction toolOutputNames as [|a l IH]; intros memo Hred t.
  - simpl in Hred. by simplify_eq.
  - cbn [reduceM] in Hred. rewrite perTool_step in Hred.
    destruct (resolve workspace (path_join OUTPUT_DIR_PATH [a; contractName]))
      as [e|[text|entries]] eqn:Hres; simpl in Hred; [| |done];
      rewrite (IH _ Hred t); clear IH Hred.
    + assert (textAt workspace (path_join OUTPUT_DIR_PATH [a; contractName]) = None)
        as Ha by (unfold textAt; by rewrite Hres).
      destruct (decide (t = a)) as [->|Hne].
      * rewrite Ha, (decide_True (P := a ∈ a :: l)) by left.
        by destruct (decide (a ∈ l)).
      * destruct (decide (t ∈ l)) as [Hl|Hl].
        -- by rewrite decide_True by by right.
        -- rewrite decide_False; [done|]. by apply not_elem_of_cons.
    + assert (textAt workspace (path_join OUTPUT_DIR_PATH [a; contractName])
              = Some text)
        as Ha by (unfold textAt; by rewrite Hres).
      destruct (decide (t = a)) as [->|Hne].
      * rewrite Ha, (decide_True (P := a ∈ a :: l)), lookup_insert_eq by left.
        by destruct (decide (a ∈ l)).
      * rewrite lookup_insert_ne by done. destruct (decide (t ∈ l)) as [Hl|Hl].
        -- by rewrite decide_True by by right.
        -- rewrite decide_False; [done|]. by apply not_elem_of_cons.
Qed.

Lemma perTool_returns contractName toolOutputNames memo :
  forallb
    (λ toolOutputName,
       notDirectory workspace
         (path_join OUTPUT_DIR_PATH [toolOutputName; contractName]))
    toolOutputNames = true →
  ∃ outputs, reduceM (perTool contractName) toolOutputNames memo = Normal outputs.
Proof.
  revert memo. induction toolOutputNames as [|a l IH]; intros memo Hreg.
  - by eexists.
  - simpl in Hreg. apply andb_prop in Hreg as [Ha Hl].
    cbn [reduceM]. rewrite perTool_step. unfold notDirectory in Ha.
    destruct (resolve workspace (path_join OUTPUT_DIR_PATH [a; contractName]))
      as [e|[text|entries]]; simpl; [by apply IH|by apply IH|done].
Qed.

(** What a returned [generateToolOutputs] holds for a pair. *)
Lemma generateToolOutputs_Normal contractNames toolOutputNames model :
  generateToolOutputs workspace makeHtml contractNames toolOutputNames = Normal model →
  ∀ c, (c ∈ contractNames →
          ∃ outputs, model !! c = Some outputs ∧
            ∀ t, outputs !! t =
                 if decide (t ∈ toolOutputNames)
                 then storedOutput makeHtml t
                        <$> textAt workspace (path_join OUTPUT_DIR_PATH [t; c])
                 else None)
       ∧ (c ∉ contractNames → model !! c = None).
Proof.
  unfold generateToolOutputs. intros [Hin Hout]%reduceM_insert_Normal c. split.
  - intros Hc. destruct (Hin c Hc) as (outputs & Hred & Hlook).
    exists outputs. split; [done|]. intros t.
    rewrite (perTool_Normal _ _ _ _ Hred t), lookup_empty.
    by repeat case_match.
  - intros Hc. by rewrite Hout.
Qed.

Lemma generateToolOutputs_returns contractNames toolOutputNames :
  regularOutputs workspace contractNames toolOutputNames = true →
  ∃ model,
    generateToolOutputs workspace makeHtml contractNames toolOutputNames = Normal model.
Proof.
  intros Hreg. unfold generateToolOutputs. apply reduceM_insert_returns.
  intros c Hc. unfold regularOutputs in Hreg.
  rewrite forallb_forall in Hreg. apply perTool_returns, Hreg.
  by apply list_elem_of_In.
Qed.

End OutputCorrelator.

(** The keys under any contract are among the names that
    [getToolOutputNames] kept. *)
Lemma generateToolOutputs_keys workspace makeHtml contractNames toolOutputNames
    model c outputs t :
  generateToolOutputs workspace makeHtml contractNames toolOutputNames = Normal model →
  model !! c = Some outputs → is_Some (outputs !! t) →
  c ∈ contractNames ∧ t ∈ toolOutputNames
  ∧ ∃ text, outputs !! t = Some (storedOutput makeHtml t text).
Proof.
  intros Hgen Hlook Hsome.
  destruct (generateToolOutputs_Normal _ _ _ _ _ Hgen c) as [Hin Hout].
  destruct (decide (c ∈ contractNames)) as [Hc|Hc];
    [|by rewrite Hout in Hlook].
  destruct (Hin Hc) as (outputs' & Hlook' & Houtputs). simplify_eq.
  rewrite Houtputs in Hsome |- *. case_decide; [|by destruct Hsome].
  destruct (textAt workspace _) as [text|]; [|by destruct Hsome].
  split; [done|]. split; [done|]. by exists text.
Qed.

Lemma regularOutputs_sublist workspace contractNames toolOutputNames kept :
  (∀ t, t ∈ kept → t ∈ toolOutputNames) →
  regularOutputs workspace contractNames toolOutputNames = true →
  regularOutputs workspace contractNames kept = true.
Proof.
  unfold regularOutputs. rewrite !forallb_forall. intros Hsub Hreg c Hc.
  specialize (Hreg c Hc). rewrite forallb_forall in Hreg |- *.
  intros t Ht. apply Hreg. by apply list_elem_of_In, Hsub, list_elem_of_In.
Qed.

(** C2: a pair whose output file does not exist has no entry in the model,
    and the model is built without an exception as long as no directory
    stands where an output file would be. *)
Theorem generateToolOutputs_absent_pair (workspace : node) (makeHtml : string → string)
    (contractNames toolOutputNames : list string) :
  (regularOutputs workspace contractNames toolOutputNames = true →
   ∃ model,
     generateToolOutputs workspace makeHtml contractNames toolOutputNames
     = Normal model)
  ∧ (∀ model c t,
       generateToolOutputs workspace makeHtml contractNames toolOutputNames
       = Normal model →
       existsSync workspace (path_join OUTPUT_DIR_PATH [t; c]) = false →
       model !! c ≫= (λ outputs, outputs !! t) = None).
Proof.
  split; [apply generateToolOutputs_returns|].
  intros model c t Hgen Habsent.
  destruct (generateToolOutputs_Normal _ _ _ _ _ Hgen c) as [Hin Hout].
  destruct (decide (c ∈ contractNames)) as [Hc|Hc]; [|by rewrite Hout].
  destruct (Hin Hc) as (outputs & -> & Houtputs). simpl.
  rewrite Houtputs. case_decide; [|done].
  unfold textAt. unfold existsSync in Habsent.
  by destruct (resolve workspace _) as [e|[text|entries]].
Qed.

Lemma generateToolOutputs_absent_pair_witness :
  ∃ model,
    generateToolOutputs sample_workspace wrapParagraph
      ["Token.sol"; "zeppelin.SafeMath.sol"] ["solhint"; "oyente"] = Normal model
    ∧ model !! "zeppelin.SafeMath.sol" ≫= (λ outputs, outputs !! "solhint") = None.
Proof.
  destruct (generateToolOutputs_absent_pair sample_workspace wrapParagraph
              ["Token.sol"; "zeppelin.SafeMath.sol"] ["solhint"; "oyente"])
    as [Hreturns Habsent].
  destruct Hreturns as [model Hmodel]; [vm_compute; reflexivity|].
  exists model. split; [exact Hmodel|].
  apply (Habsent model "zeppelin.SafeMath.sol" "solhint" Hmodel).
  vm_compute. reflexivity.
Defined.

(** C6: the content stored for a pair whose output file exists is the file's
    text, converted with [makeHtml] when the tool's type is [markdown] and
    unchanged for every other type; the stored type is the tool's entry in
    [toolOutputFileTypeMap]. *)
Theorem generateToolOutputs_content (workspace : node) (makeHtml : string → string)
    (contractNames toolOutputNames : list string) model c t text :
  generateToolOutputs workspace makeHtml contractNames toolOutputNames = Normal model →
  c ∈ contractNames → t ∈ toolOutputNames →
  readFileSync workspace (path_join OUTPUT_DIR_PATH [t; c]) = Normal text →
  ∃ outputs,
    model !! c = Some outputs
    ∧ outputs !! t =
        Some (ToolOutput.mk (toolOutputFileTypeMap !! t)
                (if decide (toolOutputFileTypeMap !! t = Some "markdown")
                 then makeHtml text else text)).
Proof.
  intros Hgen Hc Ht Hread.
  destruct (generateToolOutputs_Normal _ _ _ _ _ Hgen c) as [Hin _].
  destruct (Hin Hc) as (outputs & Hlook & Houtputs).
  exists outputs. split; [done|].
  rewrite Houtputs, decide_True by done.
  unfold textAt. unfold readFileSync in Hread.
  destruct (resolve workspace _) as [e|[text'|entries]]; by simplify_eq.
Qed.

Lemma generateToolOutputs_content_witness :
  ∃ model outputs,
    generateToolOutputs sample_workspace wrapParagraph ["Token.sol"] ["solhint"]
    = Normal model
    ∧ model !! "Token.sol" = Some outputs
    ∧ outputs !! "solhint" = Some (ToolOutput.mk (Some "text") "no issues").
Proof.
  destruct (generateToolOutputs_returns sample_workspace wrapParagraph
              ["Token.sol"] ["solhint"]) as [model Hmodel]; [vm_compute; reflexivity|].
  destruct (generateToolOutputs_content sample_workspace wrapParagraph
              ["Token.sol"] ["solhint"] model "Token.sol" "solhint" "no issues" Hmodel)
    as (outputs & Hlook & Hstored).
  - by left.
  - by left.
  - vm_compute. reflexivity.
  - exists model, outputs. split; [exact Hmodel|]. split; [exact Hlook|].
    exact Hstored.
Defined.

(** A markdown tool: what [mythril] wrote is stored converted. *)
Example generateToolOutputs_markdown (makeHtml : string → string) :
  generateToolOutputs
    (dir [ ("output", dir [ ("mythril", dir [ ("Token.sol", File "# Analysis") ]) ]) ])
    makeHtml ["Token.sol"] ["mythril"]
  = Normal {[ "Token.sol" :=
                {[ "mythril" := ToolOutput.mk (Some "markdown") (makeHtml "# Analysis") ]} ]}.
Proof. reflexivity. Qed.

(** ** Report Assembler: the contract files *)

Section FileOutputs.
Variable workspace : node.

(** The object that [generateFileOutputs] builds for one contract. *)
#[warnings="-inconsistent-scopes"]
Local Abbreviation perContract contractName :=
  (flatten ← readFileSync workspace
     (path_join INPUT_DIR_PATH ["contracts_flatten"; contractName]);
   combine ←
     (if existsSync workspace
           (path_join INPUT_DIR_PATH ["contracts_combine"; contractName])
      then Some <$> readFileSync workspace
             (path_join INPUT_DIR_PATH ["contracts_combine"; contractName])
      else mret None);
   original ←
     (if existsSync workspace
           (path_join INPUT_DIR_PATH
              ("contracts" :: getSubDirPathSplitted contractName))
      then Some <$> readFileSync workspace
             (path_join INPUT_DIR_PATH
                ("contracts" :: getSubDirPathSplitted contractName))
      else mret None);
   mret (FileOutput.mk (slugOf contractName) contractName
           (FileContent.mk flatten combine original))).

(** [existsSync(p) ? readFileSync(p) : undefined], by what is found at [p]. *)
Lemma read_if_exists p :
  (if existsSync workspace p then Some <$> readFileSync workspace p else mret None)
  = if notDirectory workspace p then Normal (textAt workspace p) else Throw EISDIR.
Proof.
  unfold existsSync, readFileSync, notDirectory, textAt.
  by destruct (resolve workspace p) as [e|[text|entries]].
Qed.

Lemma generateFileOutputs_perContract contractNames :
  generateFileOutputs workspace contractNames
  = reduceM (λ memo k, v ← perContract k; mret (<[k := v]> memo)) contractNames ∅.
Proof.
  unfold generateFileOutputs. apply reduceM_ext. intros memo c _.
  rewrite !read_if_exists.
  destruct (readFileSync workspace _); simpl; [|done].
  by do 2 (destruct (notDirectory workspace _); simpl).
Qed.

Lemma perContract_Normal contractName entry :
  perContract contractName = Normal entry →
  ∃ flatten,
    resolve workspace (path_join INPUT_DIR_PATH ["contracts_flatten"; contractName])
      = inr (File flatten)
    ∧ notDirectory workspace
        (path_join INPUT_DIR_PATH ["contracts_combine"; contractName]) = true
    ∧ notDirectory workspace
        (path_join INPUT_DIR_PATH ("contracts" :: getSubDirPathSplitted contractName))
      = true
    ∧ entry =
        FileOutput.mk (slugOf contractName) contractName
          (FileContent.mk flatten
             (textAt workspace
                (path_join INPUT_DIR_PATH ["contracts_combine"; contractName]))
             (textAt workspace
                (path_join INPUT_DIR_PATH
                   ("contracts" :: getSubDirPathSplitted contractName)))).
Proof.
  rewrite !read_if_exists. unfold readFileSync.
  destruct (resolve workspace (path_join INPUT_DIR_PATH ["contracts_flatten"; _]))
    as [e|[flatten|entries]]; simpl; try done.
  destruct (notDirectory workspace (path_join INPUT_DIR_PATH ["contracts_combine"; _]));
    simpl; [|done].
  destruct (notDirectory workspace (path_join INPUT_DIR_PATH ("contracts" :: _)));
    simpl; [|done].
  intros [= <-]. by exists flatten.
Qed.

Lemma perContract_returns contractName :
  isFile workspace (path_join INPUT_DIR_PATH ["contracts_flatten"; contractName])
  && notDirectory workspace
       (path_join INPUT_DIR_PATH ["contracts_combine"; contractName])
  && notDirectory workspace
       (path_join INPUT_DIR_PATH ("contracts" :: getSubDirPathSplitted contractName))
  = true →
  ∃ entry, perContract contractName = Normal entry.
Proof.
  intros [[Hflat Hcomb]%andb_prop Horig]%andb_prop.
  rewrite !read_if_exists, Hcomb, Horig. unfold readFileSync, isFile in *.
  destruct (resolve workspace (path_join INPUT_DIR_PATH ["contracts_flatten"; _]))
    as [e|[flatten|entries]]; simpl; try done.
  by eexists.
Qed.

Lemma generateFileOutputs_returns contractNames :
  regularInputs workspace contractNames = true →
  ∃ model, generateFileOutputs workspace contractNames = Normal model.
Proof.
  intros Hreg. rewrite generateFileOutputs_perContract.
  apply reduceM_insert_returns. intros c Hc.
  unfold regularInputs in Hreg. rewrite forallb_forall in Hreg.
  apply perContract_returns. apply (Hreg c). by apply list_elem_of_In.
Qed.

Lemma generateFileOutputs_Normal contractNames model :
  generateFileOutputs workspace contractNames = Normal model →
  ∀ c, (c ∈ contractNames → ∃ entry,
          model !! c = Some entry ∧ perContract c = Normal entry)
       ∧ (c ∉ contractNames → model !! c = None).
Proof.
  rewrite generateFileOutputs_perContract.
  intros [Hin Hout]%reduceM_insert_Normal c. split.
  - intros Hc. destruct (Hin c Hc) as (entry & ? & ?). by exists entry.
  - intros Hc. by rewrite Hout.
Qed.

Lemma textAt_Some p text :
  textAt workspace p = Some text ↔ resolve workspace p = inr (File text).
Proof.
  unfold textAt. destruct (resolve workspace p) as [e|[text'|entries]];
    split; intros; by simplify_eq.
Qed.

Lemma textAt_None p :
  notDirectory workspace p = true →
  textAt workspace p = None ↔ existsSync workspace p = false.
Proof.
  unfold textAt, notDirectory, existsSync.
  by destruct (resolve workspace p) as [e|[text'|entries]].
Qed.

End FileOutputs.

(** With the empty nested path the original of a dotless name is looked up
    at [contracts/] itself, and reading that directory is what throws. *)
Example generateFileOutputs_dotless_name :
  generateFileOutputs
    (dir [ ("input",
            dir [ ("contracts", dir [ ("Token.sol", File "contract Token {}") ]);
                  ("contracts_flatten", dir [ ("Token", File "contract Token {}") ]) ]) ])
    ["Token"]
  = Throw EISDIR.
Proof. reflexivity. Qed.

(** C9: in the entry of every listed contract, [original] holds the text of
    the file that the normalized path names below [contracts/] exactly when
    there is such a file, [combine] the text of the file of that name in
    [contracts_combine/] exactly when there is one; a variant whose path does
    not exist is absent and raises nothing; [flatten] always holds the text
    of the flattened file. *)
Theorem generateFileOutputs_variants (workspace : node) (contractNames : list string) :
  (regularInputs workspace contractNames = true →
   ∃ model, generateFileOutputs workspace contractNames = Normal model)
  ∧ (∀ model c,
       generateFileOutputs workspace contractNames = Normal model →
       c ∈ contractNames →
       ∃ entry,
         model !! c = Some entry
         ∧ resolve workspace (path_join INPUT_DIR_PATH ["contracts_flatten"; c])
           = inr (File (FileContent.flatten (FileOutput.content entry)))
         ∧ (∀ text,
              FileContent.original (FileOutput.content entry) = Some text
              ↔ resolve workspace
                  (path_join INPUT_DIR_PATH ("contracts" :: getSubDirPathSplitted c))
                = inr (File text))
         ∧ (FileContent.original (FileOutput.content entry) = None
            ↔ existsSync workspace
                (path_join INPUT_DIR_PATH ("contracts" :: getSubDirPathSplitted c))
              = false)
         ∧ (∀ text,
              FileContent.combine (FileOutput.content entry) = Some text
              ↔ resolve workspace (path_join INPUT_DIR_PATH ["contracts_combine"; c])
                = inr (File text))
         ∧ (FileContent.combine (FileOutput.content entry) = None
            ↔ existsSync workspace (path_join INPUT_DIR_PATH ["contracts_combine"; c])
              = false)).
Proof.
  split; [apply generateFileOutputs_returns|].
  intros model c Hgen Hc.
  destruct (generateFileOutputs_Normal _ _ _ Hgen c) as [Hin _].
  destruct (Hin Hc) as (entry & Hlook & Hentry).
  apply perContract_Normal in Hentry
    as (flatten & Hflatten & Hcombine & Horiginal & ->).
  eexists. split; [exact Hlook|]. simpl.
  split; [exact Hflatten|].
  split; [intros text; apply textAt_Some|].
  split; [by apply textAt_None|].
  split; [intros text; apply textAt_Some|].
  by apply textAt_None.
Qed.

Lemma generateFileOutputs_variants_witness :
  ∃ model entry,
    generateFileOutputs sample_workspace
      ["Token.sol"; "zeppelin.SafeMath.sol"] = Normal model
    ∧ model !! "zeppelin.SafeMath.sol" = Some entry
    ∧ FileContent.flatten (FileOutput.content entry) = "library SafeMath {}"
    ∧ FileContent.original (FileOutput.content entry) = None
    ∧ FileContent.combine (FileOutput.content entry) = None.
Proof.
  destruct (generateFileOutputs_variants sample_workspace
              ["Token.sol"; "zeppelin.SafeMath.sol"]) as [Hreturns Hvariants].
  destruct Hreturns as [model Hmodel]; [vm_compute; reflexivity|].
  destruct (Hvariants model "zeppelin.SafeMath.sol" Hmodel)
    as (entry & Hlook & Hflatten & _ & Horiginal & _ & Hcombine);
    [by right; left|].
  exists model, entry. split; [exact Hmodel|]. split; [exact Hlook|].
  split; [|split].
  - vm_compute in Hflatten. injection Hflatten as Hflatten.
    symmetry. exact Hflatten.
  - apply Horiginal. vm_compute. reflexivity.
  - apply Hcombine. vm_compute. reflexivity.
Defined.

(** C5, counterexample: two distinct names of one listing have the same
    slug, the run succeeds, and the model holds both entries with that
    slug. *)
Lemma slug_collision_not_detected :
  ∃ model first second,
    generateReport colliding_workspace wrapParagraph = Normal model
    ∧ RenderObject.fileOutputs model !! "A.B.sol" = Some first
    ∧ RenderObject.fileOutputs model !! "A-B.sol" = Some second
    ∧ FileOutput.name first ≠ FileOutput.name second
    ∧ FileOutput.slug first = "a-b"
    ∧ FileOutput.slug second = "a-b".
Proof.
  do 3 eexists.
  split; [vm_compute; reflexivity|].
  split; [vm_compute; reflexivity|].
  split; [vm_compute; reflexivity|].
  split; [|split]; done.
Qed.

(** C5, as the code has it: contracts are keyed by canonical name and slugs
    are not compared. Two distinct names of the listing whose slugs are equal
    both keep an entry of their own, each under its name and with the common
    slug, and no error is raised for the collision. *)
Theorem generateFileOutputs_keeps_colliding (workspace : node)
    (contractNames : list string) (c1 c2 : string) :
  regularInputs workspace contractNames = true →
  c1 ∈ contractNames → c2 ∈ contractNames → c1 ≠ c2 → slugOf c1 = slugOf c2 →
  ∃ model first second,
    generateFileOutputs workspace contractNames = Normal model
    ∧ model !! c1 = Some first
    ∧ model !! c2 = Some second
    ∧ FileOutput.name first = c1
    ∧ FileOutput.name second = c2
    ∧ FileOutput.slug first = slugOf c1
    ∧ FileOutput.slug second = FileOutput.slug first.
Proof.
  intros Hreg Hc1 Hc2 Hne Hslug.
  destruct (generateFileOutputs_returns _ _ Hreg) as [model Hgen].
  destruct (generateFileOutputs_Normal _ _ _ Hgen c1) as [Hin1 _].
  destruct (generateFileOutputs_Normal _ _ _ Hgen c2) as [Hin2 _].
  destruct (Hin1 Hc1) as (first & Hlook1 & Hentry1).
  destruct (Hin2 Hc2) as (second & Hlook2 & Hentry2).
  apply perContract_Normal in Hentry1 as (? & _ & _ & _ & ->).
  apply perContract_Normal in Hentry2 as (? & _ & _ & _ & ->).
  eexists model, _, _. split; [exact Hgen|].
  split; [exact Hlook1|]. split; [exact Hlook2|]. simpl.
  by rewrite Hslug.
Qed.

Lemma generateFileOutputs_keeps_colliding_witness :
  ∃ model first second,
    generateFileOutputs colliding_workspace ["A-B.sol"; "A.B.sol"] = Normal model
    ∧ model !! "A.B.sol" = Some first
    ∧ model !! "A-B.sol" = Some second
    ∧ FileOutput.name first = "A.B.sol"
    ∧ FileOutput.name second = "A-B.sol"
    ∧ FileOutput.slug first = slugOf "A.B.sol"
    ∧ FileOutput.slug second = FileOutput.slug first.
Proof.
  apply (generateFileOutputs_keeps_colliding colliding_workspace
           ["A-B.sol"; "A.B.sol"] "A.B.sol" "A-B.sol").
  - vm_compute. reflexivity.
  - by right; left.
  - by left.
  - done.
  - reflexivity.
Defined.

(** ** The assembled report *)

Lemma getContractNames_Normal workspace contractNames :
  getContractNames workspace = Normal contractNames →
  ∃ filenames,
    readdirSync workspace (path_join INPUT_DIR_PATH ["contracts_flatten"])
    = Normal filenames
    ∧ contractNames = filter (λ filename, filename ≠ "Migrations.sol") filenames.
Proof.
  unfold getContractNames.
  destruct (readdirSync workspace _) as [filenames|e]; simpl; [|done].
  intros [= <-]. by exists filenames.
Qed.

(** Every name that [getToolOutputNames] returns is a directory below
    [output/] with at least one entry. *)
Lemma getToolOutputNames_Normal workspace toolOutputNames :
  getToolOutputNames workspace = Normal toolOutputNames →
  ∃ dirNames,
    readdirSync workspace OUTPUT_DIR_PATH = Normal dirNames
    ∧ ∀ t, t ∈ toolOutputNames →
        t ∈ dirNames
        ∧ ∃ entries,
            readdirSync workspace (path_join OUTPUT_DIR_PATH [t]) = Normal entries
            ∧ entries ≠ [].
Proof.
  unfold getToolOutputNames.
  destruct (readdirSync workspace OUTPUT_DIR_PATH) as [dirNames|e]; simpl; [|done].
  intros Hfilter. exists dirNames. split; [done|]. intros t Ht.
  destruct (filterM_Normal _ _ _ Hfilter t Ht) as [Hdir Hkeep]. split; [done|].
  destruct (readdirSync workspace (path_join OUTPUT_DIR_PATH [t])) as [entries|e];
    simpl in Hkeep; [|done].
  exists entries. split; [done|]. intros ->. by simplify_eq.
Qed.

(** A directory below [output/] that holds a file is one of the names that
    [getToolOutputNames] returns. *)
Lemma getToolOutputNames_kept workspace toolOutputNames t c text :
  t ≠ EmptyString → c ≠ EmptyString →
  getToolOutputNames workspace = Normal toolOutputNames →
  readFileSync workspace (path_join OUTPUT_DIR_PATH [t; c]) = Normal text →
  t ∈ toolOutputNames.
Proof.
  intros Ht Hc Hnames Hread.
  assert (path_join OUTPUT_DIR_PATH [t; c] = (OUTPUT_DIR_PATH ++ [t]) ++ [c]) as Hpath.
  { unfold path_join. rewrite !filter_cons_True, filter_nil by done.
    by rewrite <- app_assoc. }
  assert (path_join OUTPUT_DIR_PATH [t] = OUTPUT_DIR_PATH ++ [t]) as Hpath'.
  { unfold path_join. by rewrite filter_cons_True, filter_nil by done. }
  unfold readFileSync in Hread. rewrite Hpath in Hread.
  destruct (resolve workspace ((OUTPUT_DIR_PATH ++ [t]) ++ [c]))
    as [e|[text'|?]] eqn:Hfile; try done.
  apply resolve_snoc in Hfile as (entries' & Htool & Hchild).
  apply resolve_snoc in Htool as (entries & Hout & Hentry).
  unfold getToolOutputNames in Hnames.
  rewrite (readdirSync_Dir _ _ _ Hout) in Hnames.
  apply (filterM_kept _ _ _ t Hnames); [by eapply elem_of_keys|].
  rewrite Hpath', (readdirSync_Dir _ _ entries').
  - pose proof (elem_of_keys _ _ _ Hchild) as Hin.
    destruct ((map_to_list entries').*1); [by apply elem_of_nil in Hin|done].
  - rewrite resolve_app, Hout. simpl. by rewrite Hentry.
Qed.

Lemma generateReport_Normal workspace makeHtml model :
  generateReport workspace makeHtml = Normal model →
  ∃ toolOutputNames contractNames,
    getToolOutputNames workspace = Normal toolOutputNames
    ∧ getContractNames workspace = Normal contractNames
    ∧ generateFileOutputs workspace contractNames
      = Normal (RenderObject.fileOutputs model)
    ∧ generateToolOutputs workspace makeHtml contractNames toolOutputNames
      = Normal (RenderObject.toolOutputs model).
Proof.
  unfold generateReport.
  destruct (getToolOutputNames workspace) as [toolOutputNames|e]; simpl; [|done].
  destruct (getContractNames workspace) as [contractNames|e]; simpl; [|done].
  destruct (generateFileOutputs workspace contractNames) as [fileOutputs|e]
    eqn:Hfiles; simpl; [|done].
  destruct (generateToolOutputs workspace makeHtml contractNames toolOutputNames)
    as [toolOutputs|e] eqn:Htools; simpl; [|done].
  intros [= <-]. by exists toolOutputNames, contractNames.
Qed.

(** [generateReport] returns its render object when [output/] holds only
    directories, [contracts_flatten/] only regular files, and no directory
    stands at the path of a content variant or of a tool output. *)
Lemma generateReport_returns workspace makeHtml dirNames filenames :
  readdirSync workspace OUTPUT_DIR_PATH = Normal dirNames →
  (∀ d, d ∈ dirNames →
        ∃ entries, readdirSync workspace (path_join OUTPUT_DIR_PATH [d]) = Normal entries) →
  readdirSync workspace (path_join INPUT_DIR_PATH ["contracts_flatten"])
  = Normal filenames →
  regularInputs workspace (filter (λ name, name ≠ "Migrations.sol") filenames) = true →
  regularOutputs workspace (filter (λ name, name ≠ "Migrations.sol") filenames)
    dirNames = true →
  ∃ model, generateReport workspace makeHtml = Normal model.
Proof.
  intros Hout Hdirs Hlisting Hinputs Houtputs.
  unfold generateReport, getToolOutputNames, getContractNames.
  rewrite Hout, Hlisting. simpl.
  destruct (filterM_returns
              (λ dirName,
                 entries ← readdirSync workspace (path_join OUTPUT_DIR_PATH [dirName]);
                 mret (negb (JS.length entries =? 0)))
              dirNames) as (kept & -> & Hsub).
  { intros d Hd. destruct (Hdirs d Hd) as [entries ->]. by eexists. }
  simpl.
  destruct (generateFileOutputs_returns _ _ Hinputs) as [fileOutputs ->]. simpl.
  destruct (generateToolOutputs_returns workspace makeHtml
              (filter (λ name, name ≠ "Migrations.sol") filenames) kept)
    as [toolOutputs ->].
  { by eapply regularOutputs_sublist. }
  by eexists.
Qed.

(** Stored contents on the render object: the output file of a listed
    contract is stored under the tool's directory name. *)
Lemma generateReport_content workspace makeHtml filenames model c t text :
  t ≠ EmptyString → c ≠ EmptyString → c ≠ "Migrations.sol" →
  readdirSync workspace (path_join INPUT_DIR_PATH ["contracts_flatten"])
  = Normal filenames →
  c ∈ filenames →
  generateReport workspace makeHtml = Normal model →
  readFileSync workspace (path_join OUTPUT_DIR_PATH [t; c]) = Normal text →
  ∃ outputs,
    RenderObject.toolOutputs model !! c = Some outputs
    ∧ outputs !! t = Some (storedOutput makeHtml t text).
Proof.
  intros Ht Hc Hmig Hlisting Hin Hreport Hread.
  destruct (generateReport_Normal _ _ _ Hreport)
    as (toolOutputNames & contractNames & Htools & Hnames & _ & Hgen).
  destruct (getContractNames_Normal _ _ Hnames) as (filenames' & Hlisting' & ->).
  rewrite Hlisting in Hlisting'. injection Hlisting' as <-.
  destruct (generateToolOutputs_Normal _ _ _ _ _ Hgen c) as [Hlisted _].
  destruct Hlisted as (outputs & Hlook & Houtputs); [by apply list_elem_of_filter|].
  exists outputs. split; [done|].
  rewrite Houtputs, decide_True by eauto using getToolOutputNames_kept.
  unfold textAt. unfold readFileSync in Hread.
  destruct (resolve workspace _) as [e|[text'|entries]]; by simplify_eq.
Qed.

(** C3: a tool whose output directory exists and is empty is a key under no
    contract of the model. *)
Theorem empty_tool_directory_excluded (workspace : node) (makeHtml : string → string)
    (tool : string) model :
  readdirSync workspace (path_join OUTPUT_DIR_PATH [tool]) = Normal [] →
  generateReport workspace makeHtml = Normal model →
  ∀ c outputs,
    RenderObject.toolOutputs model !! c = Some outputs → outputs !! tool = None.
Proof.
  intros Hempty Hreport c outputs Hlook.
  destruct (generateReport_Normal _ _ _ Hreport)
    as (toolOutputNames & contractNames & Htools & _ & _ & Hgen).
  destruct (outputs !! tool) as [stored|] eqn:Hstored; [exfalso|done].
  destruct (generateToolOutputs_keys _ _ _ _ _ c outputs tool Hgen Hlook)
    as (_ & Htool & _); [by rewrite Hstored|].
  destruct (getToolOutputNames_Normal _ _ Htools) as (dirNames & _ & Hkept).
  destruct (Hkept tool Htool) as (_ & entries & Hentries & Hne).
  rewrite Hempty in Hentries. by simplify_eq.
Qed.

Lemma empty_tool_directory_excluded_witness :
  readdirSync sample_workspace (path_join OUTPUT_DIR_PATH ["mythril"]) = Normal []
  ∧ ∃ model,
      generateReport sample_workspace wrapParagraph = Normal model
      ∧ ∀ c outputs,
          RenderObject.toolOutputs model !! c = Some outputs →
          outputs !! "mythril" = None.
Proof.
  split; [reflexivity|].
  eexists. split; [vm_compute; reflexivity|].
  apply (empty_tool_directory_excluded sample_workspace wrapParagraph "mythril").
  - reflexivity.
  - vm_compute. reflexivity.
Defined.

(** An object filled by a reduction over a duplicate-free list of keys has
    as many entries as the list has names. *)
Lemma size_of_keys {V} (m : gmap string V) (keys : list string) :
  NoDup keys → (∀ k, is_Some (m !! k) ↔ k ∈ keys) →
  size m = List.length keys.
Proof.
  intros Hnodup Hkeys. rewrite <- size_dom, <- (size_list_to_set (C := gset string)) by done.
  f_equal. apply set_eq. intros k.
  by rewrite elem_of_dom, elem_of_list_to_set.
Qed.

(** C7: the model has exactly one entry, in [fileOutputs] and in
    [toolOutputs] alike, for every name of the flattened listing other than
    [Migrations.sol], whatever variants and tool outputs exist for it, and
    none for [Migrations.sol]. *)
Theorem generateReport_contracts (workspace : node) (makeHtml : string → string)
    (filenames : list string) model :
  readdirSync workspace (path_join INPUT_DIR_PATH ["contracts_flatten"])
  = Normal filenames →
  generateReport workspace makeHtml = Normal model →
  (∀ name, is_Some (RenderObject.fileOutputs model !! name)
           ↔ name ∈ filenames ∧ name ≠ "Migrations.sol")
  ∧ (∀ name, is_Some (RenderObject.toolOutputs model !! name)
             ↔ name ∈ filenames ∧ name ≠ "Migrations.sol")
  ∧ size (RenderObject.fileOutputs model)
    = List.length (filter (λ name, name ≠ "Migrations.sol") filenames)
  ∧ size (RenderObject.toolOutputs model)
    = List.length (filter (λ name, name ≠ "Migrations.sol") filenames).
Proof.
  intros Hlisting Hreport.
  destruct (generateReport_Normal _ _ _ Hreport)
    as (toolOutputNames & contractNames & _ & Hnames & Hfiles & Htools).
  destruct (getContractNames_Normal _ _ Hnames) as (filenames' & Hlisting' & ->).
  rewrite Hlisting in Hlisting'. simplify_eq.
  assert (∀ name, is_Some (RenderObject.fileOutputs model !! name)
                  ↔ name ∈ filter (λ name, name ≠ "Migrations.sol") filenames')
    as HfileKeys.
  { rewrite generateFileOutputs_perContract in Hfiles.
    apply (reduceM_insert_dom _ _ _ Hfiles). }
  assert (∀ name, is_Some (RenderObject.toolOutputs model !! name)
                  ↔ name ∈ filter (λ name, name ≠ "Migrations.sol") filenames')
    as HtoolKeys.
  { apply (reduceM_insert_dom _ _ _ Htools). }
  assert (NoDup (filter (λ name, name ≠ "Migrations.sol") filenames')) as Hnodup.
  { apply NoDup_filter. eapply readdirSync_NoDup, Hlisting. }
  split; [|split; [|split]].
  - intros name. rewrite HfileKeys, list_elem_of_filter. tauto.
  - intros name. rewrite HtoolKeys, list_elem_of_filter. tauto.
  - by apply size_of_keys.
  - by apply size_of_keys.
Qed.

Lemma generateReport_contracts_witness :
  ∃ model,
    generateReport sample_workspace wrapParagraph = Normal model
    ∧ is_Some (RenderObject.fileOutputs model !! "zeppelin.SafeMath.sol")
    ∧ RenderObject.fileOutputs model !! "Migrations.sol" = None
    ∧ size (RenderObject.fileOutputs model) = 3%nat.
Proof.
  eexists. split; [vm_compute; reflexivity|].
  destruct (generateReport_contracts sample_workspace wrapParagraph
              ltac:(let l := eval vm_compute in
                      (match readdirSync sample_workspace
                               (path_join INPUT_DIR_PATH ["contracts_flatten"]) with
                       | Normal filenames => filenames
                       | Throw _ => []
                       end) in exact l)
              ltac:(let m := eval vm_compute in
                      (match generateReport sample_workspace wrapParagraph with
                       | Normal model => model
                       | Throw _ => RenderObject.mk ∅ ∅
                       end) in exact m))
    as (Hfiles & _ & Hsize & _).
  - vm_compute. reflexivity.
  - vm_compute. reflexivity.
  - split; [|split].
    + apply Hfiles. split; [|done]. repeat first [by left | right].
    + apply eq_None_not_Some. intros [_ Hne]%Hfiles. by apply Hne.
    + exact Hsize.
Defined.

(** ** Tool keys *)

(** Whatever tools are named, the directories the compose file binds are
    keys of [toolOutputFileTypeMap], and none of them is [surya]. *)
Lemma compose_output_dirs_typed (tools : list string) (d : string) :
  d ∈ compose_output_dirs tools →
  is_Some (toolOutputFileTypeMap !! d) ∧ d ≠ "surya".
Proof.
  unfold compose_output_dirs. rewrite list_elem_of_In, in_flat_map.
  intros ([service dirs] & Hservice & Hd).
  apply list_elem_of_In, list_elem_of_filter in Hservice as [_ Hservice].
  apply list_elem_of_In in Hd. simpl in Hd.
  unfold compose_services in Hservice.
  repeat (apply elem_of_cons in Hservice as [Hservice|Hservice];
          [injection Hservice as -> ->;
           repeat (apply elem_of_cons in Hd as [->|Hd]; [by split; [eexists|]|]);
           by apply elem_of_nil in Hd|]).
  by apply elem_of_nil in Hservice.
Qed.

(** C10: the services of the compose file are the tools of
    [AVAILABLE_TOOLS]. When the directories below [output/] are those bound
    by the compose file, every tool key of the model is a key of
    [toolOutputFileTypeMap] and carries the type listed there; [surya] is
    never a key: the service of that name writes to five directories, each
    with its own type. *)
Theorem tool_keys_in_type_map :
  compose_services.*1 = AVAILABLE_TOOLS
  ∧ compose_output_dirs ["surya"]
    = ["surya_graph"; "surya_describe"; "surya_parse"; "surya_ftrace";
       "surya_inheritance"]
  ∧ (λ t, toolOutputFileTypeMap !! t) <$> compose_output_dirs ["surya"]
    = [Some "image"; Some "text"; Some "text"; Some "text"; Some "image"]
  ∧ toolOutputFileTypeMap !! "surya" = None
  ∧ ∀ (workspace : node) (makeHtml : string → string) (tools dirNames : list string)
      model,
      readdirSync workspace OUTPUT_DIR_PATH = Normal dirNames →
      (∀ d, d ∈ dirNames → d ∈ compose_output_dirs tools) →
      generateReport workspace makeHtml = Normal model →
      ∀ c outputs t stored,
        RenderObject.toolOutputs model !! c = Some outputs →
        outputs !! t = Some stored →
        is_Some (toolOutputFileTypeMap !! t)
        ∧ t ≠ "surya"
        ∧ ToolOutput.type stored = toolOutputFileTypeMap !! t.
Proof.
  split; [reflexivity|].
  split; [reflexivity|]. split; [reflexivity|]. split; [reflexivity|].
  intros workspace makeHtml tools dirNames model Hdirs Hcompose Hreport
    c outputs t stored Hlook Hstored.
  destruct (generateReport_Normal _ _ _ Hreport)
    as (toolOutputNames & contractNames & Htools & _ & _ & Hgen).
  destruct (generateToolOutputs_keys _ _ _ _ _ c outputs t Hgen Hlook)
    as (_ & Ht & text & Htext); [by rewrite Hstored|].
  rewrite Hstored in Htext. injection Htext as ->.
  destruct (getToolOutputNames_Normal _ _ Htools) as (dirNames' & Hdirs' & Hkept).
  rewrite Hdirs in Hdirs'. injection Hdirs' as <-.
  destruct (Hkept t Ht) as [Hdir _].
  by destruct (compose_output_dirs_typed tools t (Hcompose t Hdir)) as [Htyped Hne].
Qed.

Lemma tool_keys_in_type_map_witness :
  ∃ model outputs stored,
    generateReport sample_workspace wrapParagraph = Normal model
    ∧ RenderObject.toolOutputs model !! "Token.sol" = Some outputs
    ∧ outputs !! "solhint" = Some stored
    ∧ ToolOutput.type stored = Some "text".
Proof.
  do 3 eexists.
  split; [vm_compute; reflexivity|].
  split; [vm_compute; reflexivity|].
  split; [vm_compute; reflexivity|].
  destruct tool_keys_in_type_map as (_ & _ & _ & _ & Hkeys).
  refine (proj2 (proj2 (Hkeys sample_workspace wrapParagraph
                          ["mythril"; "solhint"; "oyente"]
                          ltac:(let l := eval vm_compute in
                                  (match readdirSync sample_workspace OUTPUT_DIR_PATH with
                                   | Normal dirNames => dirNames
                                   | Throw _ => []
                                   end) in exact l)
                          ltac:(let m := eval vm_compute in
                                  (match generateReport sample_workspace wrapParagraph with
                                   | Normal model => model
                                   | Throw _ => RenderObject.mk ∅ ∅
                                   end) in exact m)
                          _ _ _ "Token.sol" _ "solhint" _ _ _))).
  - vm_compute. reflexivity.
  - intros d Hd.
    repeat (apply elem_of_cons in Hd as [->|Hd];
            [apply list_elem_of_In; vm_compute; tauto|]).
    by apply elem_of_nil in Hd.
  - vm_compute. reflexivity.
  - vm_compute. reflexivity.
  - vm_compute. reflexivity.
Defined.

(** * Further properties of the code *)

(** ** Path Normalizer: round trips and shape *)

Lemma join_last_two sep (l : list string) (a b : string) :
  JS.join sep (l ++ [a; b]) = JS.join sep (l ++ [a +:+ sep +:+ b]).
Proof.
  induction l as [|x l IH]; [done|].
  change ((x :: l) ++ [a; b]) with (x :: (l ++ [a; b])).
  change ((x :: l) ++ [a +:+ sep +:+ b]) with (x :: (l ++ [a +:+ sep +:+ b])).
  destruct l as [|y l]; [done|].
  simpl in *. by rewrite IH.
Qed.

(** Every segment of a split is free of the separator. *)
Lemma split_segments_single sep s :
  Forall (λ seg, JS.split sep seg = [seg]) (JS.split sep s).
Proof.
  induction s as [|c s IH]; simpl.
  - by repeat constructor.
  - destruct (Ascii.eqb c sep) eqn:Hc; [by constructor|].
    destruct (JS.split sep s) as [|seg segs]; [by repeat constructor; simpl; rewrite Hc|].
    apply Forall_cons in IH as [Hseg Hsegs]. constructor; [|done].
    simpl. by rewrite Hc, Hseg.
Qed.

Lemma split_join sep (segs : list string) :
  segs ≠ [] → Forall (λ seg, JS.split sep seg = [seg]) segs →
  JS.split sep (JS.join (String sep EmptyString) segs) = segs.
Proof.
  induction segs as [|x segs IH]; [done|]. intros _ Hsingle.
  apply Forall_cons in Hsingle as [Hx Hsegs].
  destruct segs as [|y segs]; [done|].
  change (JS.join (String sep "") (x :: y :: segs))
    with (x +:+ String sep (JS.join (String sep "") (y :: segs))).
  rewrite split_app_sep, Hx, IH by done. done.
Qed.

(** A list with at least two elements ends in two elements. *)
Lemma two_last {A} (l : list A) :
  (2 ≤ List.length l)%nat → ∃ front a b, l = front ++ [a; b].
Proof.
  intros Hlen.
  destruct (exists_last (l := l)) as (l' & b & ->);
    [intros ->; simpl in Hlen; lia|].
  destruct (exists_last (l := l')) as (front & a & ->);
    [intros ->; simpl in Hlen; lia|].
  exists front, a, b. by rewrite <- app_assoc.
Qed.

Lemma getSubDirPathSplitted_reduce (dirs : list string) (base ext filePath : string) :
  JS.split "." filePath = dirs ++ [base; ext] →
  getSubDirPathSplitted filePath = dirs ++ [base +:+ ".sol"].
Proof.
  intros Hsplit. unfold getSubDirPathSplitted, JS.reduce. rewrite Hsplit.
  apply (getSubDirPathSplitted_from [] dirs base ext []).
Qed.

(** X1: for a name that ends in the segment [sol], joining the nested path
    with dots gives the name back. *)
Theorem getSubDirPathSplitted_join (filePath : string) (dirs : list string)
    (base : string) :
  JS.split "." filePath = dirs ++ [base; "sol"] →
  JS.join "." (getSubDirPathSplitted filePath) = filePath.
Proof.
  intros Hsplit. rewrite (getSubDirPathSplitted_reduce _ _ _ _ Hsplit).
  change (base +:+ ".sol") with (base +:+ "." +:+ "sol").
  rewrite <- join_last_two, <- Hsplit. apply join_split.
Qed.

Lemma getSubDirPathSplitted_join_witness :
  JS.join "." (getSubDirPathSplitted "Governance.Leader.LeaderGov.sol")
  = "Governance.Leader.LeaderGov.sol".
Proof.
  apply (getSubDirPathSplitted_join _ ["Governance"; "Leader"] "LeaderGov").
  reflexivity.
Defined.

(** X2: a file [dirs/base.sol] whose directory names and base name have no
    dot is found again from its flattened name [dirs.base.sol]. *)
Theorem getSubDirPathSplitted_of_flattened (dirs : list string) (base : string) :
  Forall singleSegment dirs → singleSegment base →
  getSubDirPathSplitted (JS.join "." (dirs ++ [base; "sol"]))
  = dirs ++ [base +:+ ".sol"].
Proof.
  intros Hdirs Hbase. apply (getSubDirPathSplitted_reduce dirs base "sol").
  apply (split_join "."); [by destruct dirs|].
  apply Forall_app. split; [done|]. by repeat constructor.
Qed.

Lemma getSubDirPathSplitted_of_flattened_witness :
  getSubDirPathSplitted (JS.join "." (["Governance"; "Leader"] ++ ["LeaderGov"; "sol"]))
  = ["Governance"; "Leader"] ++ ["LeaderGov" +:+ ".sol"].
Proof.
  apply (getSubDirPathSplitted_of_flattened ["Governance"; "Leader"] "LeaderGov").
  - by repeat constructor.
  - reflexivity.
Defined.

(** X3: the nested path has one component less than the name has
    dot-separated segments. *)
Theorem getSubDirPathSplitted_length (filePath : string) :
  List.length (getSubDirPathSplitted filePath)
  = (List.length (JS.split "." filePath) - 1)%nat.
Proof.
  destruct (decide (2 ≤ List.length (JS.split "." filePath))%nat) as [Hlen|Hlen].
  - destruct (two_last _ Hlen) as (dirs & base & ext & Hsplit).
    rewrite (getSubDirPathSplitted_reduce _ _ _ _ Hsplit), Hsplit, !length_app.
    simpl. lia.
  - pose proof (split_nonempty "." filePath) as Hne.
    unfold getSubDirPathSplitted, JS.reduce.
    destruct (JS.split "." filePath) as [|seg [|? ?]]; simpl in *; [done|done|lia].
Qed.

(** X4: no component of a nested path is [.] or [..], so joining it to
    [contracts/] never leaves that directory; the directory components
    hold no dot at all. *)
Theorem getSubDirPathSplitted_components (filePath component : string) :
  component ∈ getSubDirPathSplitted filePath →
  component ≠ "." ∧ component ≠ ".."
  ∧ (singleSegment component ∨ ∃ base, component = base +:+ ".sol").
Proof.
  intros Hin.
  destruct (decide (2 ≤ List.length (JS.split "." filePath))%nat) as [Hlen|Hlen].
  - destruct (two_last _ Hlen) as (dirs & base & ext & Hsplit).
    rewrite (getSubDirPathSplitted_reduce _ _ _ _ Hsplit) in Hin.
    apply elem_of_app in Hin as [Hdir|Hfile].
    + pose proof (split_segments_single "." filePath) as Hsingle.
      rewrite Hsplit in Hsingle. apply Forall_app in Hsingle as [Hsingle _].
      rewrite Forall_forall in Hsingle. specialize (Hsingle _ Hdir).
      split; [by intros ->|]. split; [by intros ->|]. by left.
    + apply list_elem_of_singleton in Hfile as ->.
      split; [by destruct base as [|? [|? ?]]|].
      split; [by destruct base as [|? [|? [|? ?]]]|].
      right. by exists base.
  - pose proof (split_nonempty "." filePath) as Hne.
    unfold getSubDirPathSplitted, JS.reduce in Hin.
    destruct (JS.split "." filePath) as [|seg [|? ?]]; simpl in *;
      [done|by apply elem_of_nil in Hin|lia].
Qed.

Lemma getSubDirPathSplitted_components_witness :
  "Leader" ≠ "." ∧ "Leader" ≠ ".."
  ∧ (singleSegment "Leader" ∨ ∃ base, "Leader" = base +:+ ".sol").
Proof.
  apply (getSubDirPathSplitted_components "Governance.Leader.LeaderGov.sol").
  by right; left.
Defined.

(** ** Slugs: what they never contain *)

Lemma lower_ascii_idem a : JS.lower_ascii (JS.lower_ascii a) = JS.lower_ascii a.
Proof. by destruct a as [[] [] [] [] [] [] [] []]. Qed.

Lemma lower_ascii_dot a : Ascii.eqb "." (JS.lower_ascii a) = Ascii.eqb "." a.
Proof. by destruct a as [[] [] [] [] [] [] [] []]. Qed.

Lemma toLowerCase_idem s : JS.toLowerCase (JS.toLowerCase s) = JS.toLowerCase s.
Proof. induction s as [|a s IH]; simpl; [done|]. by rewrite lower_ascii_idem, IH. Qed.

Lemma includes_dot_toLowerCase s :
  JS.includes "." (JS.toLowerCase s) = JS.includes "." s.
Proof.
  induction s as [|a s IH]; [done|].
  cbn [JS.toLowerCase JS.includes JS.startsWith].
  by rewrite lower_ascii_dot, IH.
Qed.

Lemma includes_dot_replaced s :
  JS.includes "." (JS.replace_all_char "." "-" s) = false.
Proof.
  induction s as [|a s IH]; [done|]. cbn [JS.replace_all_char].
  destruct (Ascii.eqb_spec a ".") as [->|Hne].
  - change ("-" +:+ ?t) with (String "-" t). cbn [JS.includes JS.startsWith].
    by rewrite IH.
  - change (String a "" +:+ ?t) with (String a t). cbn [JS.includes JS.startsWith].
    rewrite IH. destruct (Ascii.eqb_spec "." a) as [<-|]; done.
Qed.

(** X5: whatever the name, its slug holds no dot and no upper-case ASCII
    letter (lowercasing it again changes nothing). *)
Theorem slugOf_identifier (contractName : string) :
  JS.includes "." (slugOf contractName) = false
  ∧ JS.toLowerCase (slugOf contractName) = slugOf contractName.
Proof.
  unfold slugOf. split.
  - by rewrite includes_dot_toLowerCase, includes_dot_replaced.
  - apply toLowerCase_idem.
Qed.

(** ** Output Correlator: failures, unknown tools, empty results *)

Lemma reduceM_insert_Throw {V} (g : string → completion V) (l : list string)
    (memo : gmap string V) e :
  reduceM (λ memo k, v ← g k; mret (<[k := v]> memo)) l memo = Throw e →
  ∃ k, k ∈ l ∧ g k = Throw e.
Proof.
  revert memo. induction l as [|a l IH]; intros memo Hred; simpl in Hred; [done|].
  destruct (g a) as [v|e'] eqn:Hga; simpl in Hred.
  - destruct (IH _ Hred) as (k & Hk & Hgk). exists k. split; [by right|done].
  - injection Hred as ->. exists a. split; [by left|done].
Qed.

Section OutputCorrelatorFailures.
Variable workspace : node.
Variable makeHtml : string → string.

Local Abbreviation perTool contractName :=
  (λ (memoToolOutput : gmap string ToolOutput.t) (toolOutputName : string),
     if negb (existsSync workspace
                (path_join OUTPUT_DIR_PATH [toolOutputName; contractName]))
     then mret memoToolOutput
     else
       content ←
         (if decide (toolOutputFileTypeMap !! toolOutputName = Some "markdown")
          then makeHtml <$> readFileSync workspace
                 (path_join OUTPUT_DIR_PATH [toolOutputName; contractName])
          else readFileSync workspace
                 (path_join OUTPUT_DIR_PATH [toolOutputName; contractName]));
       mret (<[toolOutputName :=
                 ToolOutput.mk (toolOutputFileTypeMap !! toolOutputName)
                   content]> memoToolOutput)).

Lemma perTool_regular contractName toolOutputNames memo outputs :
  reduceM (perTool contractName) toolOutputNames memo = Normal outputs →
  forallb
    (λ toolOutputName,
       notDirectory workspace
         (path_join OUTPUT_DIR_PATH [toolOutputName; contractName]))
    toolOutputNames = true.
Proof.
  revert memo. induction toolOutputNames as [|a l IH]; intros memo Hred; [done|].
  cbn [reduceM] in Hred. rewrite perTool_step in Hred. simpl. unfold notDirectory at 1.
  destruct (resolve workspace (path_join OUTPUT_DIR_PATH [a; contractName]))
    as [e|[text|entries]]; simpl in Hred; [by eapply IH|by eapply IH|done].
Qed.

Lemma perTool_Throw contractName toolOutputNames memo e :
  reduceM (perTool contractName) toolOutputNames memo = Throw e →
  e = EISDIR
  ∧ ∃ t, t ∈ toolOutputNames
         ∧ notDirectory workspace (path_join OUTPUT_DIR_PATH [t; contractName]) = false.
Proof.
  revert memo. induction toolOutputNames as [|a l IH]; intros memo Hred; [done|].
  cbn [reduceM] in Hred. rewrite perTool_step in Hred. unfold notDirectory.
  destruct (resolve workspace (path_join OUTPUT_DIR_PATH [a; contractName]))
    as [e'|[text|entries]] eqn:Hres; simpl in Hred.
  - destruct (IH _ Hred) as (-> & t & Ht & Hdir). split; [done|].
    exists t. split; [by right|done].
  - destruct (IH _ Hred) as (-> & t & Ht & Hdir). split; [done|].
    exists t. split; [by right|done].
  - injection Hred as <-. split; [done|]. exists a. split; [by left|].
    by rewrite Hres.
Qed.

End OutputCorrelatorFailures.

(** X6: [generateToolOutputs] returns exactly when no directory stands at the
    path of a (tool, contract) pair, and when it throws it throws [EISDIR],
    for a pair at which there is a directory. *)
Theorem generateToolOutputs_failure (workspace : node) (makeHtml : string → string)
    (contractNames toolOutputNames : list string) :
  ((∃ model,
      generateToolOutputs workspace makeHtml contractNames toolOutputNames
      = Normal model)
   ↔ regularOutputs workspace contractNames toolOutputNames = true)
  ∧ (∀ e,
       generateToolOutputs workspace makeHtml contractNames toolOutputNames = Throw e →
       e = EISDIR
       ∧ ∃ c t, c ∈ contractNames ∧ t ∈ toolOutputNames
                ∧ notDirectory workspace (path_join OUTPUT_DIR_PATH [t; c])
                  = false).
Proof.
  split; [split|].
  - intros [model Hgen]. unfold generateToolOutputs in Hgen.
    apply reduceM_insert_Normal in Hgen as [Hin _].
    unfold regularOutputs. apply forallb_forall. intros c Hc%list_elem_of_In.
    destruct (Hin c Hc) as (outputs & Hred & _).
    by eapply perTool_regular.
  - apply generateToolOutputs_returns.
  - intros e Hgen. unfold generateToolOutputs in Hgen.
    apply reduceM_insert_Throw in Hgen as (c & Hc & Hred).
    apply perTool_Throw in Hred as (-> & t & Ht & Hdir).
    split; [done|]. by exists c, t.
Qed.

Lemma generateToolOutputs_failure_witness :
  generateToolOutputs
    (dir [ ("output", dir [ ("solhint", dir [ ("Token.sol", dir []) ]) ]) ])
    wrapParagraph ["Token.sol"] ["solhint"]
  = Throw EISDIR.
Proof.
  destruct (generateToolOutputs
              (dir [ ("output", dir [ ("solhint", dir [ ("Token.sol", dir []) ]) ]) ])
              wrapParagraph ["Token.sol"] ["solhint"]) as [model|e] eqn:Hgen.
  - exfalso.
    destruct (generateToolOutputs_failure
                (dir [ ("output", dir [ ("solhint", dir [ ("Token.sol", dir []) ]) ]) ])
                wrapParagraph ["Token.sol"] ["solhint"]) as [[Hregular _] _].
    specialize (Hregular (ex_intro _ model Hgen)). vm_compute in Hregular. done.
  - destruct (generateToolOutputs_failure
                (dir [ ("output", dir [ ("solhint", dir [ ("Token.sol", dir []) ]) ]) ])
                wrapParagraph ["Token.sol"] ["solhint"]) as [_ Hthrow].
    by destruct (Hthrow e Hgen) as [-> _].
Defined.



(** X8: a listed contract for which no tool wrote a file still has an
    object of its own in the model, an empty one. *)
Theorem generateToolOutputs_no_outputs (workspace : node) (makeHtml : string → string)
    (contractNames toolOutputNames : list string) model c :
  generateToolOutputs workspace makeHtml contractNames toolOutputNames = Normal model →
  c ∈ contractNames →
  (∀ t, t ∈ toolOutputNames →
        existsSync workspace (path_join OUTPUT_DIR_PATH [t; c]) = false) →
  model !! c = Some ∅.
Proof.
  intros Hgen Hc Habsent.
  destruct (generateToolOutputs_Normal _ _ _ _ _ Hgen c) as [Hin _].
  destruct (Hin Hc) as (outputs & -> & Houtputs). f_equal.
  apply map_eq. intros t. rewrite Houtputs, lookup_empty.
  case_decide as Ht; [|done]. specialize (Habsent t Ht).
  unfold textAt. unfold existsSync in Habsent.
  by destruct (resolve workspace _) as [e|[text'|entries]].
Qed.

Lemma generateToolOutputs_no_outputs_witness :
  ∃ model,
    generateToolOutputs sample_workspace wrapParagraph
      ["Token.sol"; "zeppelin.SafeMath.sol"] ["solhint"; "oyente"] = Normal model
    ∧ model !! "zeppelin.SafeMath.sol" = Some ∅.
Proof.
  destruct (generateToolOutputs_returns sample_workspace wrapParagraph
              ["Token.sol"; "zeppelin.SafeMath.sol"] ["solhint"; "oyente"])
    as [model Hmodel]; [vm_compute; reflexivity|].
  exists model. split; [exact Hmodel|].
  apply (generateToolOutputs_no_outputs sample_workspace wrapParagraph
           ["Token.sol"; "zeppelin.SafeMath.sol"] ["solhint"; "oyente"] model
           "zeppelin.SafeMath.sol" Hmodel).
  - by right; left.
  - intros t Ht.
    repeat (apply elem_of_cons in Ht as [->|Ht]; [vm_compute; reflexivity|]).
    by apply elem_of_nil in Ht.
Defined.

(** [markdown] is the type of [mythril] only. *)
Lemma markdown_is_mythril t :
  toolOutputFileTypeMap !! t = Some "markdown" → t = "mythril".
Proof.
  unfold toolOutputFileTypeMap. intros Hlook%elem_of_list_to_map_2.
  repeat (apply elem_of_cons in Hlook as [Hlook|Hlook]; [by simplify_eq|]).
  by apply elem_of_nil in Hlook.
Qed.

(** X9: the markdown converter is applied to the files of [mythril] and to
    no others: without [mythril] among the tool names the result does not
    depend on the converter. *)
Theorem generateToolOutputs_converter (workspace : node)
    (makeHtml makeHtml' : string → string) (contractNames toolOutputNames : list string) :
  "mythril" ∉ toolOutputNames →
  generateToolOutputs workspace makeHtml contractNames toolOutputNames
  = generateToolOutputs workspace makeHtml' contractNames toolOutputNames.
Proof.
  intros Hmythril. unfold generateToolOutputs.
  apply reduceM_ext. intros memo c _. f_equal.
  apply reduceM_ext. intros memoToolOutput t Ht.
  destruct (existsSync workspace _); simpl; [|done].
  case_decide as Hmarkdown; [|done].
  apply markdown_is_mythril in Hmarkdown as ->. done.
Qed.

Lemma generateToolOutputs_converter_witness :
  generateToolOutputs sample_workspace wrapParagraph ["Token.sol"] ["solhint"; "oyente"]
  = generateToolOutputs sample_workspace (λ text, text) ["Token.sol"] ["solhint"; "oyente"].
Proof.
  apply (generateToolOutputs_converter sample_workspace wrapParagraph (λ text, text)).
  intros Hin.
  repeat (apply elem_of_cons in Hin as [Hin|Hin]; [done|]).
  by apply elem_of_nil in Hin.
Defined.

(** ** Output directories *)

Lemma filterM_sublist {A} (f : A → completion bool) (l kept : list A) :
  filterM f l = Normal kept → kept `sublist_of` l.
Proof.
  revert kept. induction l as [|a l IH]; intros kept Hf; simpl in Hf.
  - by simplify_eq.
  - destruct (f a) as [keep|e]; simpl in Hf; [|done].
    destruct (filterM f l) as [kept'|e]; simpl in Hf; [|done].
    injection Hf as <-. specialize (IH kept' eq_refl).
    destruct keep; [by apply sublist_skip|by apply sublist_cons].
Qed.

(** X10: [getToolOutputNames] returns the directories of [output/] that
    have at least one entry, in the order of the listing. *)
Theorem getToolOutputNames_members (workspace : node)
    (dirNames toolOutputNames : list string) :
  readdirSync workspace OUTPUT_DIR_PATH = Normal dirNames →
  getToolOutputNames workspace = Normal toolOutputNames →
  toolOutputNames `sublist_of` dirNames
  ∧ ∀ t, t ∈ toolOutputNames
         ↔ t ∈ dirNames
           ∧ ∃ entries,
               readdirSync workspace (path_join OUTPUT_DIR_PATH [t]) = Normal entries
               ∧ entries ≠ [].
Proof.
  intros Hdirs Hnames. split.
  - unfold getToolOutputNames in Hnames. rewrite Hdirs in Hnames.
    by apply filterM_sublist in Hnames.
  - intros t. split.
    + intros Ht. destruct (getToolOutputNames_Normal _ _ Hnames) as (dirNames' & Hdirs' & Hkept).
      rewrite Hdirs in Hdirs'. injection Hdirs' as <-. by apply Hkept.
    + intros (Ht & entries & Hentries & Hne).
      unfold getToolOutputNames in Hnames. rewrite Hdirs in Hnames.
      apply (filterM_kept _ _ _ t Hnames Ht). rewrite Hentries. simpl.
      by destruct entries.
Qed.

Lemma getToolOutputNames_members_witness :
  "solhint" ∈ ["oyente"; "solhint"] ∧ "mythril" ∉ ["oyente"; "solhint"].
Proof.
  destruct (getToolOutputNames_members sample_workspace
              ltac:(let l := eval vm_compute in
                      (match readdirSync sample_workspace OUTPUT_DIR_PATH with
                       | Normal dirNames => dirNames
                       | Throw _ => []
                       end) in exact l)
              ["oyente"; "solhint"]) as [_ Hmembers].
  - vm_compute. reflexivity.
  - vm_compute. reflexivity.
  - split.
    + apply Hmembers. split; [repeat first [by left | right]|].
      eexists. split; [vm_compute; reflexivity|done].
    + intros (_ & entries & Hentries & Hne)%Hmembers.
      vm_compute in Hentries. by injection Hentries as <-.
Defined.

Lemma filterM_Throw_only {A} (f : A → completion bool) (l : list A) e x :
  (∀ y e', y ∈ l → f y = Throw e' → e' = e) →
  x ∈ l → f x = Throw e → filterM f l = Throw e.
Proof.
  induction l as [|a l IH]; intros Honly Hx Hfx; [by apply elem_of_nil in Hx|].
  simpl. destruct (f a) as [keep|e'] eqn:Hfa; simpl.
  - apply elem_of_cons in Hx as [->|Hx]; [by rewrite Hfx in Hfa|].
    rewrite IH; [done| |done|done]. intros y e' Hy. apply Honly. by right.
  - f_equal. apply (Honly a); [by left|done].
Qed.

(** X11: a regular file directly below [output/] makes the report fail:
    [getToolOutputNames] lists it as a directory and throws [ENOTDIR], and
    so does [generateReport]. *)
Theorem stray_output_file (workspace : node) (makeHtml : string → string)
    (entries : gmap string node) (name text : string) :
  resolve workspace OUTPUT_DIR_PATH = inr (Dir entries) →
  entries !! name = Some (File text) →
  name ≠ EmptyString →
  getToolOutputNames workspace = Throw ENOTDIR
  ∧ generateReport workspace makeHtml = Throw ENOTDIR.
Proof.
  intros Hout Hfile Hname.
  assert (getToolOutputNames workspace = Throw ENOTDIR) as Hthrow.
  { unfold getToolOutputNames. rewrite (readdirSync_Dir _ _ _ Hout). simpl.
    apply (filterM_Throw_only _ _ _ name).
    - intros d e' Hd. unfold readdirSync, path_join.
      destruct (decide (d = EmptyString)) as [->|Hd'].
      + rewrite filter_cons_False, filter_nil, app_nil_r, Hout by (by intros ?). done.
      + rewrite filter_cons_True, filter_nil, resolve_app, Hout by done. simpl.
        apply list_elem_of_fmap in Hd as ([d' child] & -> & Hchild).
        apply elem_of_map_to_list in Hchild. simpl. rewrite Hchild.
        destruct child; simpl; intros; by simplify_eq.
    - by eapply elem_of_keys.
    - unfold readdirSync, path_join.
      rewrite filter_cons_True, filter_nil, resolve_app, Hout by done. simpl.
      by rewrite Hfile. }
  split; [done|]. unfold generateReport. by rewrite Hthrow.
Qed.

Lemma stray_output_file_witness :
  generateReport
    (dir [ ("input", dir [ ("contracts_flatten", dir [ ("Token.sol", File "contract Token {}") ]) ]);
           ("output", dir [ ("solhint", dir [ ("Token.sol", File "no issues") ]);
                            ("docker.log", File "done") ]) ])
    wrapParagraph
  = Throw ENOTDIR.
Proof.
  eapply (stray_output_file _ wrapParagraph _ "docker.log" "done").
  - vm_compute. reflexivity.
  - vm_compute. reflexivity.
  - done.
Defined.

(** ** Report Assembler: when it returns *)

Lemma generateFileOutputs_regular workspace contractNames model :
  generateFileOutputs workspace contractNames = Normal model →
  regularInputs workspace contractNames = true.
Proof.
  intros Hgen. unfold regularInputs. apply forallb_forall.
  intros c Hc%list_elem_of_In.
  destruct (generateFileOutputs_Normal _ _ _ Hgen c) as [Hin _].
  destruct (Hin Hc) as (entry & _ & Hentry).
  apply perContract_Normal in Hentry as (flatten & Hflatten & -> & -> & _).
  unfold isFile. by rewrite Hflatten.
Qed.

(** X12: [generateFileOutputs] returns exactly when every listed contract
    has a regular flattened file and neither its combined nor its original
    path is a directory. *)
Theorem generateFileOutputs_failure (workspace : node) (contractNames : list string) :
  (∃ model, generateFileOutputs workspace contractNames = Normal model)
  ↔ regularInputs workspace contractNames = true.
Proof.
  split; [|apply generateFileOutputs_returns].
  intros [model Hgen]. by eapply generateFileOutputs_regular.
Qed.


(** ** Command line *)

Lemma find_first {A} (f : A → bool) (l : list A) x :
  List.find f l = Some x →
  ∃ before after,
    l = before ++ x :: after ∧ f x = true ∧ Forall (λ y, f y = false) before.
Proof.
  induction l as [|a l IH]; [done|]. simpl.
  destruct (f a) eqn:Hfa.
  - intros [= <-]. by exists [], l.
  - intros (before & after & -> & Hfx & Hbefore)%IH.
    exists (a :: before), after. split; [done|]. split; [done|]. by constructor.
Qed.

Lemma find_nothing {A} (f : A → bool) (l : list A) :
  List.find f l = None ↔ Forall (λ y, f y = false) l.
Proof.
  induction l as [|a l IH]; simpl; [by split|].
  destruct (f a) eqn:Hfa.
  - split; [done|]. intros [Ha _]%Forall_cons. congruence.
  - rewrite IH. split; [by constructor|by intros [_ ?]%Forall_cons].
Qed.

Section CommandLineProperties.
Variable untildify : string → string.
Variable path_isAbsolute : string → bool.
Variable path_resolve : string → string.
Variable pathJoin : list string → string.
Variable cwd : string.
Variable TMP_GIT_REPO_PATH : string.

Local Abbreviation parse :=
  (parseArgs untildify path_isAbsolute path_resolve pathJoin cwd TMP_GIT_REPO_PATH).


(** X15: when [parseArgs] leaves the process for a tool name, it is for the
    first name of the command line that is not in [AVAILABLE_TOOLS]. *)
Theorem parseArgs_invalid_tool (argv : Argv.t) (toolArg : string) :
  parse argv = Exits (InvalidTool toolArg) →
  (toolArg ∉ AVAILABLE_TOOLS)
  ∧ ∃ before after,
      Argv.positionals argv = before ++ toolArg :: after
      ∧ Forall (λ valid, valid ∈ AVAILABLE_TOOLS) before.
Proof.
  unfold parseArgs.
  destruct (orb _ _); [done|]. destruct (negb _); [done|].
  destruct (List.find _ (Argv.positionals argv)) as [toolArg'|] eqn:Hfind.
  - intros [= <-]. apply find_first in Hfind as (before & after & Hpos & Hinvalid & Hbefore).
    split.
    + by apply negb_true_iff, bool_decide_eq_false in Hinvalid.
    + exists before, after. split; [done|]. eapply Forall_impl; [exact Hbefore|].
      intros valid Hvalid. simpl in Hvalid.
      by apply negb_false_iff, bool_decide_eq_true in Hvalid.
  - by repeat case_match.
Qed.

(** X16: the tools that [parseArgs] lets through are the names of the
    command line, unchanged and in order, and each of them is a service of
    the compose file. *)
Theorem parseArgs_tools (argv : Argv.t) (args : Args.t) :
  parse argv = Returns (Some args) →
  Args.tools args = Argv.positionals argv
  ∧ Forall (λ tool, tool ∈ compose_services.*1) (Args.tools args).
Proof.
  intros Hparse.
  assert (Args.tools args = Argv.positionals argv) as Htools.
  { unfold parseArgs in Hparse. repeat case_match; by simplify_eq. }
  split; [done|]. rewrite Htools.
  change (compose_services.*1) with AVAILABLE_TOOLS.
  unfold parseArgs in Hparse.
  destruct (orb _ _); [done|]. destruct (negb _); [done|].
  destruct (List.find _ (Argv.positionals argv)) as [toolArg|] eqn:Hfind; [done|].
  apply find_nothing in Hfind. eapply Forall_impl; [exact Hfind|].
  intros tool Htool. simpl in Htool.
  by apply negb_false_iff, bool_decide_eq_true in Htool.
Qed.

(** X17: in truffle and in git mode the dependency directories are those of
    the project: whatever [--npm-dir] and [--ethpm-dir] say is ignored. *)
Theorem parseArgs_project_dependencies (argv : Argv.t) (npmDir ethpmDir : option string) :
  truthy (Argv.truffle argv) || truthy (Argv.git argv) = true →
  parse
    {| Argv.contractDir := Argv.contractDir argv;
       Argv.truffle := Argv.truffle argv;
       Argv.git := Argv.git argv;
       Argv.destFile := Argv.destFile argv;
       Argv.npmDir := npmDir;
       Argv.ethpmDir := ethpmDir;
       Argv.positionals := Argv.positionals argv |}
  = parse argv.
Proof.
  intros Hproject. unfold parseArgs. simpl.
  destruct (truthy (Argv.contractDir argv)), (truthy (Argv.truffle argv)),
    (truthy (Argv.git argv)); try done.
Qed.

End CommandLineProperties.

(** ** The file of the report *)

Lemma string_length_app s t :
  String.length (s +:+ t) = (String.length s + String.length t)%nat.
Proof. induction s as [|a s IH]; simpl; [done|]. by rewrite IH. Qed.

Lemma drop_app s t : JS.drop (String.length s) (s +:+ t) = t.
Proof. induction s as [|a s IH]; simpl; [by destruct t|done]. Qed.

Lemma endsWith_app s suffix : JS.endsWith suffix (s +:+ suffix) = true.
Proof.
  unfold JS.endsWith. rewrite string_length_app.
  replace (String.length s + String.length suffix - String.length suffix)%nat
    with (String.length s) by lia.
  rewrite drop_app. apply String.eqb_refl.
Qed.

(** X18: the report is written to a file whose name ends in [.html]: a
    destination that already does is taken as it is, any other gets the
    extension appended; normalizing twice changes nothing more. *)
Theorem reportFilePath_html (destFilePath : string) :
  JS.endsWith ".html" (reportFilePath destFilePath) = true
  ∧ (reportFilePath destFilePath = destFilePath
     ∨ reportFilePath destFilePath = destFilePath +:+ ".html"
       ∧ JS.endsWith ".html" destFilePath = false)
  ∧ reportFilePath (reportFilePath destFilePath) = reportFilePath destFilePath.
Proof.
  assert (JS.endsWith ".html" (reportFilePath destFilePath) = true) as Hends.
  { unfold reportFilePath.
    destruct (JS.endsWith ".html" destFilePath) eqn:Hdest; [done|].
    apply endsWith_app. }
  split; [done|]. split.
  - unfold reportFilePath. destruct (JS.endsWith ".html" destFilePath); [by left|by right].
  - unfold reportFilePath at 1. by rewrite Hends.
Qed.


Lemma parseArgs_invalid_tool_witness :
  ("surya_graph" ∉ AVAILABLE_TOOLS)
  ∧ ∃ before after,
      ["oyente"; "surya_graph"; "solium"] = before ++ "surya_graph" :: after
      ∧ Forall (λ valid, valid ∈ AVAILABLE_TOOLS) before.
Proof.
  apply (parseArgs_invalid_tool (λ inputPath, inputPath) (JS.startsWith "/")
           (λ inputPath, inputPath) (JS.join "/") "/home/user"
           "/opt/solhydra/.workspaces/workspace1/cloned-repo"
           {| Argv.contractDir := Some "/home/user/contracts";
              Argv.truffle := None;
              Argv.git := None;
              Argv.destFile := Some "/home/user/out";
              Argv.npmDir := None;
              Argv.ethpmDir := None;
              Argv.positionals := ["oyente"; "surya_graph"; "solium"] |}).
  reflexivity.
Defined.

Lemma parseArgs_tools_witness :
  Forall (λ tool, tool ∈ compose_services.*1) ["surya"; "oyente"].
Proof.
  refine (proj2 (parseArgs_tools (λ inputPath, inputPath) (JS.startsWith "/")
                   (λ inputPath, inputPath) (JS.join "/") "/home/user"
                   "/opt/solhydra/.workspaces/workspace1/cloned-repo" sample_argv
                   ltac:(let a := eval vm_compute in
                           (match sample_parseArgs sample_argv with
                            | Returns (Some args) => args
                            | _ => Args.mk None "" "" [] None None None None None
                            end) in exact a)
                   _)).
  reflexivity.
Defined.

Lemma parseArgs_project_dependencies_witness :
  sample_parseArgs
    {| Argv.contractDir := None;
       Argv.truffle := Some "/home/user/project";
       Argv.git := None;
       Argv.destFile := Some "/home/user/out";
       Argv.npmDir := Some "/somewhere/else/node_modules";
       Argv.ethpmDir := None;
       Argv.positionals := ["surya"; "oyente"] |}
  = sample_parseArgs sample_argv.
Proof.
  apply (parseArgs_project_dependencies (λ inputPath, inputPath) (JS.startsWith "/")
           (λ inputPath, inputPath) (JS.join "/") "/home/user"
           "/opt/solhydra/.workspaces/workspace1/cloned-repo" sample_argv
           (Some "/somewhere/else/node_modules") None).
  reflexivity.
Defined.

(** ** Project files *)

Lemma writeAt_resolve n p text n' :
  writeAt n p text = inr n' → resolve n' p = inr (File text).
Proof.
  revert n n'. induction p as [|c p IH]; intros n n' Hwrite; [done|].
  destruct n as [?|entries]; [done|]. simpl in Hwrite.
  destruct p as [|c' p].
  - destruct (entries !! c) as [[?|?]|]; simplify_eq; simpl;
      by rewrite lookup_insert_eq.
  - destruct (entries !! c) as [n0|]; [|done].
    destruct (writeAt n0 (c' :: p) text) as [e|n0'] eqn:Hrec; [done|].
    injection Hwrite as <-. cbn [resolve]. rewrite lookup_insert_eq.
    by apply (IH n0).
Qed.

(** Writing a file changes the text of no other file. *)
Lemma writeAt_textAt n p text n' q :
  writeAt n p text = inr n' → q ≠ p → textAt n' q = textAt n q.
Proof.
  revert n n' q. induction p as [|c p IH]; intros n n' q Hwrite Hq; [done|].
  destruct n as [?|entries]; [done|]. simpl in Hwrite.
  destruct q as [|c1 q]; [by repeat case_match; simplify_eq|].
  destruct p as [|c' p].
  - assert (n' = Dir (<[c := File text]> entries)
            ∧ ∀ entries', entries !! c ≠ Some (Dir entries')) as [-> Hnodir].
    { destruct (entries !! c) as [[?|?]|]; by simplify_eq. }
    unfold textAt. cbn [resolve]. destruct (decide (c1 = c)) as [->|Hne].
    + rewrite lookup_insert_eq. destruct q as [|c2 q]; [done|]. cbn [resolve].
      destruct (entries !! c) as [[?|entries']|]; [done| |done].
      by destruct (Hnodir entries').
    + by rewrite lookup_insert_ne.
  - destruct (entries !! c) as [n0|] eqn:Hc; [|done].
    destruct (writeAt n0 (c' :: p) text) as [e|n0'] eqn:Hrec; [done|].
    injection Hwrite as <-. unfold textAt. cbn [resolve].
    destruct (decide (c1 = c)) as [->|Hne].
    + rewrite lookup_insert_eq, Hc. apply (IH n0 n0' q Hrec). congruence.
    + by rewrite lookup_insert_ne.
Qed.

Lemma writeAt_cons n c p text :
  p ≠ [] →
  writeAt n (c :: p) text
  = match n with
    | File _ => inl ENOTDIR
    | Dir entries =>
        match entries !! c with
        | Some n0 =>
            match writeAt n0 p text with
            | inr n0' => inr (Dir (<[c := n0']> entries))
            | inl e => inl e
            end
        | None => inl ENOENT
        end
    end.
Proof. intros Hp. by destruct p. Qed.

(** A write succeeds where a write next to it does, unless a directory is
    in the way. *)
Lemma writeAt_sibling n parent name name' text text' n' :
  writeAt n (parent ++ [name]) text = inr n' →
  notDirectory n (parent ++ [name']) = true →
  ∃ n'', writeAt n (parent ++ [name']) text' = inr n''.
Proof.
  revert n n'. induction parent as [|c parent IH]; intros n n' Hwrite Hnodir.
  - destruct n as [?|entries]; [done|]. unfold notDirectory in Hnodir. simpl in *.
    destruct (entries !! name') as [[?|?]|]; [by eexists|done|by eexists].
  - change ((c :: parent) ++ [name]) with (c :: (parent ++ [name])) in Hwrite.
    change ((c :: parent) ++ [name']) with (c :: (parent ++ [name'])) in Hnodir |- *.
    rewrite (writeAt_cons n c (parent ++ [name]) text) in Hwrite by by destruct parent.
    rewrite (writeAt_cons n c (parent ++ [name']) text') by by destruct parent.
    unfold notDirectory in Hnodir. cbn [resolve] in Hnodir.
    destruct n as [?|entries]; [done|].
    destruct (entries !! c) as [n0|]; [|done].
    destruct (writeAt n0 (parent ++ [name]) text) as [e|n0'] eqn:Hrec; [done|].
    destruct (IH n0 n0' Hrec) as [n0'' ->]; [done|]. by eexists.
Qed.

(** Writing a file does not change whether a file next to it can be
    written. *)
Lemma writeAt_sibling_iff n parent name name' text text' n' :
  writeAt n (parent ++ [name]) text = inr n' →
  name ≠ name' →
  (∃ n'', writeAt n' (parent ++ [name']) text' = inr n'')
  ↔ (∃ n'', writeAt n (parent ++ [name']) text' = inr n'').
Proof.
  intros Hwrite Hne. revert n n' Hwrite.
  induction parent as [|c parent IH]; intros n n' Hwrite.
  - destruct n as [?|entries]; [done|]. simpl in Hwrite.
    assert (n' = Dir (<[name := File text]> entries)) as ->.
    { destruct (entries !! name) as [[?|?]|]; by simplify_eq. }
    simpl. rewrite lookup_insert_ne by done.
    destruct (entries !! name') as [[?|?]|]; split; intros [? ?];
      simplify_eq; by eexists.
  - change ((c :: parent) ++ [name]) with (c :: (parent ++ [name])) in Hwrite.
    change ((c :: parent) ++ [name']) with (c :: (parent ++ [name'])).
    rewrite (writeAt_cons n c (parent ++ [name]) text) in Hwrite by by destruct parent.
    rewrite !(writeAt_cons _ c (parent ++ [name']) text') by by destruct parent.
    destruct n as [?|entries]; [done|].
    destruct (entries !! c) as [n0|] eqn:Hc; [|done].
    destruct (writeAt n0 (parent ++ [name]) text) as [e|n0'] eqn:Hrec; [done|].
    injection Hwrite as <-. rewrite lookup_insert_eq.
    specialize (IH n0 n0' Hrec).
    destruct (writeAt n0' (parent ++ [name']) text') as [?|?],
      (writeAt n0 (parent ++ [name']) text') as [?|?];
      split; intros [? ?]; simplify_eq; try by eexists.
    + destruct IH as [_ IH]. destruct IH as [? ?]; [by eexists|done].
    + destruct IH as [IH _]. destruct IH as [? ?]; [by eexists|done].
Qed.

Section ProjectFilesProperties.
Variable WORKSPACE_DIR_PATH : path.

Local Abbreviation INPUT := (WORKSPACE_DIR_PATH ++ INPUT_DIR_PATH).

Lemma path_join_name base name :
  name ≠ EmptyString → path_join base [name] = base ++ [name].
Proof. intros Hname. unfold path_join. by rewrite filter_cons_True, filter_nil. Qed.

(** X19: when [addPackageJson] returns, [input/package.json] holds the text
    of the project's [package.json], and no file other than
    [input/package.json] and [input/package-lock.json] has changed. *)
Theorem addPackageJson_copies (fs fs' : node) (packageJsonPath : string) :
  addPackageJson WORKSPACE_DIR_PATH fs packageJsonPath = Normal fs' →
  (∃ packageJson,
     readFileSync fs (hostPath packageJsonPath) = Normal packageJson
     ∧ readFileSync fs' (INPUT ++ ["package.json"]) = Normal packageJson)
  ∧ ∀ q, q ≠ INPUT ++ ["package.json"] → q ≠ INPUT ++ ["package-lock.json"] →
         textAt fs' q = textAt fs q.
Proof.
  unfold addPackageJson. rewrite !path_join_name by done.
  destruct (readFileSync fs (hostPath packageJsonPath)) as [packageJson|e]; [|done].
  simpl. unfold writeFileSync.
  set (fs1 := match _ ≫= _ with Normal fs1 => fs1 | Throw _ => fs end).
  destruct (writeAt fs1 (INPUT ++ ["package.json"]) packageJson) as [e|fs2] eqn:Hwrite;
    [done|].
  intros [= <-]. split.
  - exists packageJson. split; [done|].
    unfold readFileSync. by rewrite (writeAt_resolve _ _ _ _ Hwrite).
  - intros q Hq Hq'. rewrite (writeAt_textAt _ _ _ _ q Hwrite Hq).
    subst fs1. destruct (readFileSync fs _) as [lock|e]; simpl; [|done].
    destruct (writeAt fs (INPUT ++ ["package-lock.json"]) lock) as [e|fs1] eqn:Hlock;
      [done|].
    by apply (writeAt_textAt _ _ _ _ q Hlock).
Qed.

(** X20: the lock file is copied when it can be read and no directory is in
    the way of the copy. *)
Theorem addPackageJson_lock (fs fs' : node) (packageJsonPath lock : string) :
  addPackageJson WORKSPACE_DIR_PATH fs packageJsonPath = Normal fs' →
  readFileSync fs (hostPath (JS.replace_first ".js" "-lock.js" packageJsonPath))
  = Normal lock →
  notDirectory fs (INPUT ++ ["package-lock.json"]) = true →
  readFileSync fs' (INPUT ++ ["package-lock.json"]) = Normal lock.
Proof.
  unfold addPackageJson. rewrite !path_join_name by done.
  intros Hadd Hlock Hnodir. rewrite Hlock in Hadd.
  destruct (readFileSync fs (hostPath packageJsonPath)) as [packageJson|e]; [|done].
  simpl in Hadd. unfold writeFileSync in Hadd.
  destruct (writeAt fs (INPUT ++ ["package-lock.json"]) lock) as [e|fs1] eqn:Hwrite.
  - destruct (writeAt fs (INPUT ++ ["package.json"]) packageJson) as [e'|fs2] eqn:Hpkg;
      [done|].
    destruct (writeAt_sibling _ _ _ "package-lock.json" _ lock _ Hpkg Hnodir) as [? Hok].
    by rewrite Hok in Hwrite.
  - destruct (writeAt fs1 (INPUT ++ ["package.json"]) packageJson) as [e'|fs2] eqn:Hpkg;
      [done|].
    injection Hadd as <-.
    assert (textAt fs2 (INPUT ++ ["package-lock.json"]) = Some lock) as Htext.
    { rewrite (writeAt_textAt _ _ _ _ _ Hpkg).
      - unfold textAt. by rewrite (writeAt_resolve _ _ _ _ Hwrite).
      - intros Heq%app_inj_tail. by destruct Heq. }
    unfold textAt in Htext. unfold readFileSync.
    destruct (resolve fs2 _) as [?|[?|?]]; by simplify_eq.
Qed.

(** A lock file that cannot be read, for whatever reason, is passed over in
    silence: [addPackageJson] then does what copying [package.json] alone
    does. *)
Lemma addPackageJson_without_lock (fs : node) (packageJsonPath : string) e :
  readFileSync fs (hostPath (JS.replace_first ".js" "-lock.js" packageJsonPath))
  = Throw e →
  addPackageJson WORKSPACE_DIR_PATH fs packageJsonPath
  = (packageJson ← readFileSync fs (hostPath packageJsonPath);
     writeFileSync fs (INPUT ++ ["package.json"]) packageJson).
Proof.
  intros Hlock. unfold addPackageJson. rewrite Hlock, path_join_name by done. done.
Qed.

(** X21: whether [addPackageJson] returns does not depend on the lock file:
    it returns exactly when [package.json] can be read and can be written
    to [input/package.json]; no failure to read or to copy the lock file
    makes it throw. *)
Theorem addPackageJson_returns (fs : node) (packageJsonPath : string) :
  (∃ fs', addPackageJson WORKSPACE_DIR_PATH fs packageJsonPath = Normal fs')
  ↔ ∃ packageJson fs',
      readFileSync fs (hostPath packageJsonPath) = Normal packageJson
      ∧ writeFileSync fs (INPUT ++ ["package.json"]) packageJson = Normal fs'.
Proof.
  unfold addPackageJson. rewrite !path_join_name by done.
  destruct (readFileSync fs (hostPath packageJsonPath)) as [packageJson|e];
    [|split; [by intros [? ?]|by intros (? & ? & ? & _)]].
  simpl.
  assert ((∃ fs', writeFileSync fs (INPUT ++ ["package.json"]) packageJson = Normal fs')
          ↔ ∃ fs', writeAt fs (INPUT ++ ["package.json"]) packageJson = inr fs')
    as Hwrite.
  { unfold writeFileSync.
    destruct (writeAt fs (INPUT ++ ["package.json"]) packageJson);
      split; intros [? ?]; by simplify_eq; eexists. }
  transitivity (∃ fs', writeFileSync fs (INPUT ++ ["package.json"]) packageJson
                       = Normal fs').
  - destruct (readFileSync fs _) as [lock|e]; simpl; [|done].
    unfold writeFileSync at 2.
    destruct (writeAt fs (INPUT ++ ["package-lock.json"]) lock) as [e|fs1] eqn:Hlock;
      [done|].
    rewrite Hwrite.
    rewrite <- (writeAt_sibling_iff fs INPUT "package-lock.json" "package.json"
                  lock packageJson fs1 Hlock) by done.
    unfold writeFileSync.
    destruct (writeAt fs1 (INPUT ++ ["package.json"]) packageJson);
      split; intros [? ?]; by simplify_eq; eexists.
  - split.
    + intros [fs' Hfs']. by exists packageJson, fs'.
    + intros (packageJson' & fs' & [= <-] & Hfs'). by exists fs'.
Qed.

End ProjectFilesProperties.

Lemma append_empty s : EmptyString +:+ s = s.
Proof. reflexivity. Qed.

Lemma append_cons a s t : String a s +:+ t = String a (s +:+ t).
Proof. reflexivity. Qed.

Lemma replace_first_cons pattern replacement c s :
  JS.startsWith pattern (String c s) = false →
  JS.replace_first pattern replacement (String c s)
  = String c (JS.replace_first pattern replacement s).
Proof. intros Hstart. cbn [JS.replace_first]. by rewrite Hstart. Qed.

(** The leftmost [.js] of a string is not in a prefix that holds none, when
    what follows the prefix starts with neither [j] nor [s]. *)
Lemma replace_first_js_skip (replacement stem : string) (r : ascii) (rest : string) :
  r ≠ "j"%char → r ≠ "s"%char →
  JS.includes ".js" stem = false →
  JS.replace_first ".js" replacement (stem +:+ String r rest)
  = stem +:+ JS.replace_first ".js" replacement (String r rest).
Proof.
  intros Hj Hs. induction stem as [|c stem IH]; [done|].
  cbn [JS.includes]. intros [Hstart Hincl]%orb_false_elim.
  change (String c stem +:+ String r rest) with (String c (stem +:+ String r rest)).
  rewrite replace_first_cons; [by rewrite IH|].
  clear IH Hincl.
  destruct stem as [|d [|e stem]]; rewrite ?append_cons, ?append_empty;
    cbn -[Ascii.eqb] in Hstart |- *; destruct (Ascii.eqb "." c); try done;
    cbn -[Ascii.eqb] in Hstart |- *.
  - by destruct (Ascii.eqb_spec "j" r) as [<-|].
  - destruct (Ascii.eqb "j" d); [|done]. cbn -[Ascii.eqb].
    by destruct (Ascii.eqb_spec "s" r) as [<-|].
Qed.

(** X22: for a project directory whose path holds no [.js], the lock file
    that [addPackageJson] looks for is [package-lock.json] beside
    [package.json]. *)
Theorem addPackageJson_lock_path (projectDir : string) :
  JS.includes ".js" projectDir = false →
  JS.replace_first ".js" "-lock.js" (projectDir +:+ "/package.json")
  = projectDir +:+ "/package-lock.json".
Proof.
  intros Hdir.
  by rewrite (replace_first_js_skip _ projectDir "/" "package.json") by done.
Qed.

Lemma addPackageJson_lock_path_witness :
  JS.replace_first ".js" "-lock.js" ("/home/user/project" +:+ "/package.json")
  = "/home/user/project" +:+ "/package-lock.json".
Proof. apply (addPackageJson_lock_path "/home/user/project"). reflexivity. Defined.

(** With [.js] in the path of the project the lock file is looked for
    elsewhere, and a lock file beside [package.json] is not copied. *)
Example addPackageJson_lock_path_js :
  JS.replace_first ".js" "-lock.js" "/home/user/node.js-app/package.json"
  = "/home/user/node-lock.js-app/package.json".
Proof. reflexivity. Qed.

Lemma addPackageJson_copies_witness :
  ∃ fs',
    addPackageJson sample_WORKSPACE_DIR_PATH sample_host "/home/user/project/package.json"
    = Normal fs'
    ∧ readFileSync fs' (sample_WORKSPACE_DIR_PATH ++ INPUT_DIR_PATH ++ ["package.json"])
      = Normal "{ name: project }"
    ∧ textAt fs' ["home"; "user"; "project"; "package.json"] = Some "{ name: project }".
Proof.
  eexists. split; [vm_compute; reflexivity|].
  destruct (addPackageJson_copies sample_WORKSPACE_DIR_PATH sample_host
              ltac:(let f := eval vm_compute in
                      (match addPackageJson sample_WORKSPACE_DIR_PATH sample_host
                               "/home/user/project/package.json" with
                       | Normal fs' => fs'
                       | Throw _ => sample_host
                       end) in exact f)
              "/home/user/project/package.json")
    as [(packageJson & Hread & Hcopy) Hframe].
  - vm_compute. reflexivity.
  - split.
    + vm_compute in Hread. injection Hread as <-.
      rewrite <- app_assoc in Hcopy. exact Hcopy.
    + rewrite Hframe by done. vm_compute. reflexivity.
Defined.

Lemma addPackageJson_lock_witness :
  ∃ fs',
    addPackageJson sample_WORKSPACE_DIR_PATH sample_host "/home/user/project/package.json"
    = Normal fs'
    ∧ readFileSync fs'
        ((sample_WORKSPACE_DIR_PATH ++ INPUT_DIR_PATH) ++ ["package-lock.json"])
      = Normal "{ lockfileVersion: 1 }".
Proof.
  eexists. split; [vm_compute; reflexivity|].
  apply (addPackageJson_lock sample_WORKSPACE_DIR_PATH sample_host _
           "/home/user/project/package.json").
  - vm_compute. reflexivity.
  - vm_compute. reflexivity.
  - vm_compute. reflexivity.
Defined.

Lemma addPackageJson_returns_witness :
  ∃ fs',
    addPackageJson sample_WORKSPACE_DIR_PATH sample_host "/home/user/project/package.json"
    = Normal fs'.
Proof.
  apply (addPackageJson_returns sample_WORKSPACE_DIR_PATH sample_host
           "/home/user/project/package.json").
  do 2 eexists. split; vm_compute; reflexivity.
Defined.

(** ** The run *)


Section RunProperties.
Variable untildify : string → string.
Variable path_isAbsolute : string → bool.
Variable path_resolve : string → string.
Variable pathJoin : list string → string.
Variable cwd : string.
Variable WORKSPACE_ID : string.
Variable WORKSPACE_DIR_PATH : string.
Variable TMP_GIT_REPO_PATH : string.
Variable DOCKER_COMPOSE_PATH : string.

Local Abbreviation parse :=
  (parseArgs untildify path_isAbsolute path_resolve pathJoin cwd TMP_GIT_REPO_PATH).
Local Abbreviation run :=
  (start untildify path_isAbsolute path_resolve pathJoin cwd WORKSPACE_ID
     WORKSPACE_DIR_PATH TMP_GIT_REPO_PATH DOCKER_COMPOSE_PATH).



(** X25: the report is generated only after [docker-compose up] has been run
    with the tools of the command line and has ended with code 0, and it
    is generated for the destination of the command line. *)
Theorem start_report_after_tools (argv : Argv.t) (outcomes : Outcomes.t)
    (destFilePath : string) :
  GenerateReport destFilePath ∈ run argv outcomes →
  Outcomes.dockerCompose outcomes = 0
  ∧ ∃ args before after,
      parse argv = Returns (Some args)
      ∧ destFilePath = Args.destFilePath args
      ∧ Args.tools args = Argv.positionals argv
      ∧ run argv outcomes
        = before
          ++ DockerComposeUp
               (["-p"; WORKSPACE_ID; "-f"; DOCKER_COMPOSE_PATH; "up"]
                ++ Argv.positionals argv)
          :: GenerateReport destFilePath :: after.
Proof.
  unfold start.
  destruct (parse argv) as [e|[args|]] eqn:Hparse.
  - intros Hin. repeat (apply elem_of_cons in Hin as [Hin|Hin]; [done|]).
    by apply elem_of_nil in Hin.
  - assert (Args.tools args = Argv.positionals argv) as Htools.
    { unfold parseArgs in Hparse. repeat case_match; by simplify_eq. }
    unfold executeTasks_arguments. rewrite Htools.
    destruct (truthy (Args.gitUrl args)), outcomes as [[] [] code []]; simpl;
      destruct (Z.eqb_spec code 0) as [->|Hcode]; simpl; intros Hin;
      repeat (apply elem_of_cons in Hin as [Hin|Hin];
              [try discriminate Hin|]);
      try (by apply elem_of_nil in Hin);
      injection Hin as ->; (split; [done|]); exists args;
      first
        [ by eexists [_], _
        | by eexists [_; _], _
        | by eexists [_; _; _], _
        | by eexists [_; _; _; _], _ ].
  - intros Hin. repeat (apply elem_of_cons in Hin as [Hin|Hin]; [done|]).
    by apply elem_of_nil in Hin.
Qed.

End RunProperties.

Lemma start_report_after_tools_witness :
  ∃ before after,
    sample_start sample_argv (Outcomes.mk true true 0 false)
    = before
      ++ DockerComposeUp
           (["-p"; "1"; "-f"; "/opt/solhydra/docker-compose.yml"; "up"]
            ++ ["surya"; "oyente"])
      :: GenerateReport "/home/user/out" :: after.
Proof.
  destruct (start_report_after_tools (λ inputPath, inputPath) (JS.startsWith "/")
              (λ inputPath, inputPath) (JS.join "/") "/home/user" "1"
              "/opt/solhydra/.workspaces/workspace1"
              "/opt/solhydra/.workspaces/workspace1/cloned-repo"
              "/opt/solhydra/docker-compose.yml"
              sample_argv (Outcomes.mk true true 0 false) "/home/user/out")
    as (_ & args & before & after & _ & _ & _ & Hrun).
  - vm_compute. repeat first [by left | right].
  - by exists before, after.
Defined.

(** ** Keys and entries *)

(** X26: every entry of [generateFileOutputs] sits under the name of a
    listed contract and carries that name and the slug of that name. *)
Theorem generateFileOutputs_entries (workspace : node) (contractNames : list string)
    model key entry :
  generateFileOutputs workspace contractNames = Normal model →
  model !! key = Some entry →
  key ∈ contractNames
  ∧ FileOutput.name entry = key
  ∧ FileOutput.slug entry = slugOf key.
Proof.
  intros Hgen Hlook.
  destruct (generateFileOutputs_Normal _ _ _ Hgen key) as [Hin Hout].
  destruct (decide (key ∈ contractNames)) as [Hkey|Hkey];
    [|by rewrite Hout in Hlook].
  destruct (Hin Hkey) as (entry' & Hlook' & Hentry). simplify_eq.
  by apply perContract_Normal in Hentry as (? & _ & _ & _ & ->).
Qed.

Lemma generateFileOutputs_entries_witness :
  ∃ model entry,
    generateFileOutputs sample_workspace ["Governance.Leader.LeaderGov.sol"]
    = Normal model
    ∧ model !! "Governance.Leader.LeaderGov.sol" = Some entry
    ∧ FileOutput.name entry = "Governance.Leader.LeaderGov.sol"
    ∧ FileOutput.slug entry = "governance-leader-leadergov".
Proof.
  do 2 eexists. split; [vm_compute; reflexivity|]. split; [vm_compute; reflexivity|].
  eapply (generateFileOutputs_entries sample_workspace
            ["Governance.Leader.LeaderGov.sol"] _ "Governance.Leader.LeaderGov.sol").
  - vm_compute. reflexivity.
  - vm_compute. reflexivity.
Defined.

Lemma generateFileOutputs_failure_witness :
  ∃ model,
    generateFileOutputs sample_workspace ["Token.sol"; "zeppelin.SafeMath.sol"]
    = Normal model.
Proof.
  apply (generateFileOutputs_failure sample_workspace
           ["Token.sol"; "zeppelin.SafeMath.sol"]).
  vm_compute. reflexivity.
Defined.


